(** * Fig completion-suggestion resolver: a shallow embedding

    The embedded program is the terminal-suggest adaptation layer over the
    fig argument parser: [getFigSuggestions], [getFigSpecSuggestions],
    [collectCompletionItemResult] with its inner closure [addSuggestions],
    [convertEnvRecordToArray], [getFixSuggestionDescription] and
    [getFigSuggestionLabel].

    Conventions of the embedding:
    - a JS value that may be [undefined] or [null] is an [option];
    - a JS object used as a map ([Record<string, T>]) is the list of its
      entries in the order [Object.entries] enumerates them;
    - the [async] functions live in a small state monad [Async] whose state
      carries a logical clock (one tick per [await]) and the time-stamped
      log of generator executions; a cancellation token is read against the
      clock;
    - the modules imported by the source and not part of it (shell parser,
      argument parser, completion-item constructor, OS helpers, generator
      execution) are the fields of the record [Imports]. *)

From Stdlib Require Import String List ZArith Bool Arith Lia.
Import ListNotations.
Local Open Scope string_scope.
Local Open Scope list_scope.

Set Implicit Arguments.

(** ** Data model *)

(** [vscode.TerminalCompletionItemKind]; the members the source names. *)
Inductive TerminalCompletionItemKind : Type :=
| Kind_File
| Kind_Folder
| Kind_Method
| Kind_Alias
| Kind_Argument
| Kind_Option
| Kind_OptionValue
| Kind_Flag.

Definition TerminalCompletionItemKind_eqb (a b : TerminalCompletionItemKind) : bool :=
  match a, b with
  | Kind_File, Kind_File | Kind_Folder, Kind_Folder | Kind_Method, Kind_Method
  | Kind_Alias, Kind_Alias | Kind_Argument, Kind_Argument | Kind_Option, Kind_Option
  | Kind_OptionValue, Kind_OptionValue | Kind_Flag, Kind_Flag => true
  | _, _ => false
  end.

(** [TokenType] of '../tokens'; the source only tests for [Command]. *)
Inductive TokenType : Type :=
| TokenType_Command
| TokenType_Argument.

Definition TokenType_eqb (a b : TokenType) : bool :=
  match a, b with
  | TokenType_Command, TokenType_Command => true
  | TokenType_Argument, TokenType_Argument => true
  | _, _ => false
  end.

(** The [name] property of a spec node: absent, one string, or a list of
    aliases. *)
Inductive FigName : Type :=
| NameUndefined
| NameString (s : string)
| NameArray (l : list string).

(** A spec node as the label functions see it ([Fig.Spec], [Fig.Suggestion],
    [Fig.Option], [Fig.Arg]). *)
Record FigNode : Type := mkFigNode {
  node_name : FigName;
  node_description : option string
}.

(** [SpecArg = Fig.Arg | Fig.Suggestion | Fig.Option | string]. *)
Inductive SpecArg : Type :=
| SpecArg_string (s : string)
| SpecArg_node (n : FigNode).

(** [SpecArg[] | Record<string, SpecArg>]. *)
Inductive SpecArgs : Type :=
| SpecArgs_array (l : list SpecArg)
| SpecArgs_record (entries : list (string * SpecArg)).

(** [Fig.Template]: one template name or an array of them. *)
Inductive Template : Type :=
| Template_one (s : string)
| Template_many (l : list string).

(** The declared fields of a [Fig.Generator]. *)
Record Generator : Type := mkGenerator {
  gen_template : option Template;
  gen_script : option string
}.

Record FigArg : Type := mkFigArg {
  arg_suggestions : option SpecArgs;
  arg_generators : option (list Generator)
}.

Record CompletionObj : Type := mkCompletionObj {
  subcommands : option SpecArgs;
  options : option SpecArgs
}.

Record ArgumentParserResult : Type := mkArgumentParserResult {
  completionObj : CompletionObj;
  currentArg : option FigArg;
  suggestionFlags : Z
}.

Record ICompletionResource : Type := mkResource {
  label : string;
  definitionCommand : option string;
  detail : option string;
  kind : option TerminalCompletionItemKind
}.

Record TerminalContext : Type := mkTerminalContext {
  commandLine : string;
  cursorPosition : Z
}.

Record Uri : Type := mkUri { fsPath : string }.

Record EnvironmentVariable : Type := mkEnvironmentVariable {
  key : string;
  value : string
}.

Record ShellContext : Type := mkShellContext {
  sc_environmentVariables : list (string * string);
  sc_currentWorkingDirectory : string;
  sc_sshPrefix : string;
  sc_currentProcess : string
}.

Record FigShellContext : Type := mkFigShellContext {
  fsc_currentWorkingDirectory : option string;
  fsc_environmentVariables : list EnvironmentVariable
}.

Record FigState : Type := mkFigState {
  buffer : string;
  cursorLocation : Z;
  cwd : option string;
  processUserIsIn : option string;
  sshContextString : option string;
  aliases : list (string * string);
  environmentVariables : list (string * string);
  shellContext : FigShellContext
}.

Inductive Visibility : Type :=
| HIDDEN_UNTIL_KEYPRESS.

(** ** Structural equality of generator definitions *)

Definition option_eqb {A} (eqb : A -> A -> bool) (a b : option A) : bool :=
  match a, b with
  | None, None => true
  | Some x, Some y => eqb x y
  | _, _ => false
  end.

Fixpoint list_eqb {A} (eqb : A -> A -> bool) (a b : list A) : bool :=
  match a, b with
  | [], [] => true
  | x :: a', y :: b' => eqb x y && list_eqb eqb a' b'
  | _, _ => false
  end.

Definition Template_eqb (a b : Template) : bool :=
  match a, b with
  | Template_one x, Template_one y => String.eqb x y
  | Template_many x, Template_many y => list_eqb String.eqb x y
  | _, _ => false
  end.

Definition Generator_eqb (a b : Generator) : bool :=
  option_eqb Template_eqb (gen_template a) (gen_template b)
  && option_eqb String.eqb (gen_script a) (gen_script b).

(** ** The world of an asynchronous request *)

Record World : Type := mkWorld {
  clock : nat;
  executed : list (nat * Generator)
}.

Definition Async (A : Type) : Type := World -> A * World.

Definition ret {A} (a : A) : Async A := fun w => (a, w).

Definition bind {A B} (m : Async A) (f : A -> Async B) : Async B :=
  fun w => let (a, w') := m w in f a w'.

Declare Scope async_scope.
Delimit Scope async_scope with async.
Notation "x <- c ;; k" := (bind c (fun x => k))
  (at level 61, c at next level, right associativity) : async_scope.
Notation "c ;;; k" := (bind c (fun _ => k))
  (at level 61, right associativity) : async_scope.
Local Open Scope async_scope.

(** One turn of the event loop. *)
Definition tick : Async unit :=
  fun w => (tt, mkWorld (S (clock w)) (executed w)).

Definition now : Async nat := fun w => (clock w, w).

(** [await m]: run [m], then resume on a later turn. *)
Definition await {A} (m : Async A) : Async A :=
  a <- m ;; tick ;;; ret a.

(** Record that a generator's execution contract was invoked, and when. *)
Definition logExecution (g : Generator) : Async unit :=
  fun w => (tt, mkWorld (clock w) (executed w ++ [(clock w, g)])).

(** The generators executed so far, in order. *)
Definition executions (w : World) : list Generator := map snd (executed w).

(** [for (const x of l) { acc = f acc x }] *)
Fixpoint forOf {A S} (f : S -> A -> Async S) (l : list A) (acc : S) : Async S :=
  match l with
  | [] => ret acc
  | x :: l' => acc' <- f acc x ;; forOf f l' acc'
  end.

(** [vscode.CancellationToken]: [isCancellationRequested] as a function of
    the clock. *)
Definition CancellationToken : Type := nat -> bool.

(** [token && token.isCancellationRequested] / [token?.isCancellationRequested] *)
Definition isCancellationRequested (token : option CancellationToken) (t : nat) : bool :=
  match token with
  | Some tk => tk t
  | None => false
  end.

(** ** Pure helpers of the source *)

(** JS truthiness of a [name]: undefined and the empty string are falsy,
    an array is truthy. *)
Definition truthyName (n : FigName) : bool :=
  match n with
  | NameUndefined => false
  | NameString s => negb (String.eqb s "")
  | NameArray _ => true
  end.

(** [item.name]: a string primitive has no [name] property. *)
Definition nameOf (item : SpecArg) : FigName :=
  match item with
  | SpecArg_string _ => NameUndefined
  | SpecArg_node n => node_name n
  end.

(** [typeof item === 'string' ? item : item.description] *)
Definition descriptionOf (item : SpecArg) : option string :=
  match item with
  | SpecArg_string s => Some s
  | SpecArg_node n => node_description n
  end.

Definition getFigSuggestionLabel (spec : SpecArg) : option (list string) :=
  match spec with
  | SpecArg_string s => Some [s]
  | SpecArg_node n =>
      match node_name n with
      | NameString s => Some [s]
      | NameUndefined => None
      | NameArray [] => None
      | NameArray l => Some l
      end
  end.

Definition getFixSuggestionDescription (spec : FigNode) : string :=
  match node_description spec with
  | Some d => d
  | None => ""
  end.

Definition convertEnvRecordToArray (env : list (string * string)) : list EnvironmentVariable :=
  map (fun '(k, v) => mkEnvironmentVariable k v) env.

(** [generator.template] is truthy. *)
Definition truthyTemplate (t : option Template) : bool :=
  match t with
  | None => false
  | Some (Template_one s) => negb (String.eqb s "")
  | Some (Template_many _) => true
  end.

(** [Array.isArray(generator.template) ? generator.template : [generator.template]] *)
Definition templatesOf (t : Template) : list string :=
  match t with
  | Template_one s => [s]
  | Template_many l => l
  end.

(** JS [ToInt32], the operand conversion of the bitwise operators. *)
Definition ToInt32 (z : Z) : Z := ((z + 2 ^ 31) mod 2 ^ 32 - 2 ^ 31)%Z.

(** [a & b] is truthy. *)
Definition flagSet (a b : Z) : bool :=
  negb (Z.eqb (Z.land (ToInt32 a) (ToInt32 b)) 0).

(** [s.startsWith(p)] *)
Definition startsWith (s p : string) : bool := String.prefix p s.

(** [l.find(f)] *)
Definition find_first {A} (f : A -> bool) (l : list A) : option A := List.find f l.

(** [a ?? b] *)
Definition nullish {A} (a : option A) (b : A) : A :=
  match a with
  | Some x => x
  | None => b
  end.

(** What a generator declares through [template]. *)
Definition declaresTemplate (name : string) (g : Generator) : bool :=
  truthyTemplate (gen_template g)
  && match gen_template g with
     | Some t => existsb (String.eqb name) (templatesOf t)
     | None => false
     end.

(** ** Result types *)

Record RequestedFlags : Type := mkRequestedFlags {
  rf_filesRequested : bool;
  rf_foldersRequested : bool
}.

Section Program.

(** The completion item type of the host ([vscode.TerminalCompletionItem])
    and the parsed shell command ([Command] of './shell-parser/command'). *)
Variable TerminalCompletionItem : Type.
Variable Command : Type.

Record IFigSpecSuggestionsResult : Type := mkResult {
  filesRequested : bool;
  foldersRequested : bool;
  hasCurrentArg : bool;
  items : list TerminalCompletionItem
}.

(** State captured by the closure [addSuggestions]: the two [let] flags of
    [collectCompletionItemResult] and the [items] array it pushes to. *)
Record Collected : Type := mkCollected {
  c_filesRequested : bool;
  c_foldersRequested : bool;
  c_items : list TerminalCompletionItem
}.

Record GeneratorState : Type := mkGeneratorState {
  gs_generator : Generator;
  gs_request : option (list SpecArg)
}.

Record AutocompleteState : Type := mkAutocompleteState {
  figState : FigState;
  parserResult : ArgumentParserResult;
  generatorStates : list GeneratorState;
  command : Command;
  visibleState : Visibility;
  lastInsertedSuggestion : option SpecArg;
  justInserted : bool;
  selectedIndex : Z;
  suggestions : list SpecArg;
  hasChangedIndex : bool;
  historyModeEnabled : bool;
  fuzzySearchEnabled : bool;
  userFuzzySearchEnabled : bool
}.

(** The modules the source imports. *)
Record Imports : Type := mkImports {
  (** './shared/utils': the bits of [SuggestionFlag]. *)
  SuggestionFlag_Args : Z;
  SuggestionFlag_Subcommands : Z;
  SuggestionFlag_Options : Z;
  (** '../helpers/os' *)
  osIsWindows : bool;
  (** '../helpers/file' *)
  removeAnyFileExtension : string -> string;
  (** [label.match(new RegExp(`${specLabel}(\\.[^ ]+)?$`))] is non-null;
      arguments: the command label, then the spec label. *)
  matchesSpecLabelRegExp : string -> string -> bool;
  (** './shell-parser/command' *)
  getCommand : string -> list (string * string) -> Z -> option Command;
  (** './autocomplete-parser/parseArguments' *)
  parseArguments : Command -> ShellContext -> FigNode -> ArgumentParserResult;
  (** '../helpers/completionItem' *)
  createCompletionItem :
    Z -> string -> ICompletionResource -> option string -> option string ->
    option TerminalCompletionItemKind -> TerminalCompletionItem;
  (** The execution contract of a generator: what its request resolves to
      in a given context. *)
  executeGenerator : Generator -> FigState -> option (list SpecArg)
}.

Variable deps : Imports.

(** ** Generator resolution *)

(** Modelled from the spec: [createGeneratorState(state).triggerGenerators]
    of './autocomplete/state/generators' is not part of the source. The
    specification (4.3) gives one batch per generator of the current
    argument; a generator identical to one already triggered in the pass is
    skipped; a generator declaring template filepaths or folders computes no
    matches; any other generator has its execution contract invoked with the
    context of the state. *)
Fixpoint triggerPass (ctx : FigState) (triggered : list Generator) (gens : list Generator)
  : Async (list (option GeneratorState)) :=
  match gens with
  | [] => ret []
  | g :: rest =>
      if existsb (Generator_eqb g) triggered then
        rs <- triggerPass ctx triggered rest ;;
        ret (None :: rs)
      else if declaresTemplate "filepaths" g || declaresTemplate "folders" g then
        rs <- triggerPass ctx (g :: triggered) rest ;;
        ret (Some (mkGeneratorState g None) :: rs)
      else
        logExecution g ;;;
        rs <- triggerPass ctx (g :: triggered) rest ;;
        ret (Some (mkGeneratorState g (executeGenerator deps g ctx)) :: rs)
  end.

(** Modelled from the spec: the entry point of the pass described above. *)
Definition triggerGenerators (state : AutocompleteState) (parsedArguments : ArgumentParserResult)
  : Async (list (option GeneratorState)) :=
  match currentArg parsedArguments with
  | Some arg => triggerPass (figState state) [] (nullish (arg_generators arg) [])
  | None => ret []
  end.

(** ** [collectCompletionItemResult] and its closure [addSuggestions] *)

Section Collect.

Variable command : Command.
Variable prefix : string.
Variable terminalContext : TerminalContext.
Variable shellIntegrationCwd : option Uri.
Variable env : list (string * string).

(** The [createCompletionItem] call shared by the three pushes of
    [addSuggestions]. *)
Definition suggestionItem (kind : TerminalCompletionItemKind) (label : string)
    (item : SpecArg) : TerminalCompletionItem :=
  createCompletionItem deps (cursorPosition terminalContext) prefix
    (mkResource label None None None) None (descriptionOf item) (Some kind).

(** The template loop over one generator. *)
Definition applyTemplates (generator : Generator) (st : Collected) : Collected :=
  if truthyTemplate (gen_template generator) then
    fold_left
      (fun st template =>
         if String.eqb template "filepaths" then
           mkCollected true (c_foldersRequested st) (c_items st)
         else if String.eqb template "folders" then
           mkCollected (c_filesRequested st) true (c_items st)
         else st)
      (match gen_template generator with
       | Some t => templatesOf t
       | None => []
       end)
      st
  else st.

Definition initialFigState : FigState :=
  mkFigState
    (commandLine terminalContext)
    (cursorPosition terminalContext)
    (option_map fsPath shellIntegrationCwd)
    None
    None
    []
    env
    (mkFigShellContext (option_map fsPath shellIntegrationCwd) (convertEnvRecordToArray env)).

Definition autocompleteState (parsedArguments : ArgumentParserResult) : AutocompleteState :=
  mkAutocompleteState initialFigState parsedArguments [] command
    HIDDEN_UNTIL_KEYPRESS None false 0%Z [] false false false false.

(** The candidates one produced item pushes. *)
Definition itemCandidates (kind : TerminalCompletionItemKind) (item : SpecArg)
  : list TerminalCompletionItem :=
  if negb (truthyName (nameOf item)) then []
  else
    match getFigSuggestionLabel item with
    | None => []
    | Some suggestionLabels => map (fun label => suggestionItem kind label item) suggestionLabels
    end.

(** [for (const item of (await generatorResult?.request) ?? [])] *)
Definition consumeBatch (kind : TerminalCompletionItemKind) (st : Collected)
    (generatorResult : option GeneratorState) : Async Collected :=
  produced <- await (ret (match generatorResult with
                          | Some r => gs_request r
                          | None => None
                          end)) ;;
  ret (fold_left
         (fun st item =>
            mkCollected (c_filesRequested st) (c_foldersRequested st)
              (c_items st ++ itemCandidates kind item))
         (nullish produced [])
         st).

(** The body of [for (const generator of generators)]. *)
Definition generatorStep (kind : TerminalCompletionItemKind)
    (parsedArguments : ArgumentParserResult) (st : Collected) (generator : Generator)
  : Async Collected :=
  let st := applyTemplates generator st in
  generatorResults <- triggerGenerators (autocompleteState parsedArguments) parsedArguments ;;
  forOf (consumeBatch kind) generatorResults st.

(** The candidates of one entry of an array source. *)
Definition arrayCandidates (kind : TerminalCompletionItemKind) (item : SpecArg)
  : list TerminalCompletionItem :=
  match getFigSuggestionLabel item with
  | None => []
  | Some suggestionLabels => map (fun label => suggestionItem kind label item) suggestionLabels
  end.

(** The static part of [addSuggestions]: an array or a keyed mapping. *)
Definition pushStatic (kind : TerminalCompletionItemKind) (specArgs : SpecArgs)
    (st : Collected) : Collected :=
  match specArgs with
  | SpecArgs_array l =>
      fold_left
        (fun st item =>
           mkCollected (c_filesRequested st) (c_foldersRequested st)
             (c_items st ++ arrayCandidates kind item))
        l st
  | SpecArgs_record entries =>
      fold_left
        (fun st '(label, item) =>
           mkCollected (c_filesRequested st) (c_foldersRequested st)
             (c_items st ++ [suggestionItem kind label item]))
        entries st
  end.

Definition addSuggestions (specArgs : option SpecArgs) (kind : TerminalCompletionItemKind)
    (parsedArguments : option ArgumentParserResult) (st : Collected) : Async Collected :=
  st <- match kind, parsedArguments with
        | Kind_Argument, Some pa =>
            match currentArg pa with
            | Some arg =>
                match arg_generators arg with
                | Some generators => forOf (generatorStep kind pa) generators st
                | None => ret st
                end
            | None => ret st
            end
        | _, _ => ret st
        end ;;
  match specArgs with
  | None => ret st
  | Some sa => ret (pushStatic kind sa st)
  end.

Definition collectCompletionItemResult (parsedArguments : ArgumentParserResult)
    (items : list TerminalCompletionItem)
  : Async (option RequestedFlags * list TerminalCompletionItem) :=
  let st := mkCollected false false items in
  st <- (if flagSet (suggestionFlags parsedArguments) (SuggestionFlag_Args deps) then
           await (addSuggestions
                    (match currentArg parsedArguments with
                     | Some arg => arg_suggestions arg
                     | None => None
                     end)
                    Kind_Argument (Some parsedArguments) st)
         else ret st) ;;
  st <- (if flagSet (suggestionFlags parsedArguments) (SuggestionFlag_Subcommands deps) then
           await (addSuggestions (subcommands (completionObj parsedArguments))
                    Kind_Method None st)
         else ret st) ;;
  st <- (if flagSet (suggestionFlags parsedArguments) (SuggestionFlag_Options deps) then
           await (addSuggestions (options (completionObj parsedArguments))
                    Kind_Flag None st)
         else ret st) ;;
  ret (Some (mkRequestedFlags (c_filesRequested st) (c_foldersRequested st)), c_items st).

End Collect.

(** ** [getFigSpecSuggestions] *)

Definition getFigSpecSuggestions (spec : FigNode) (terminalContext : TerminalContext)
    (prefix : string) (shellIntegrationCwd : option Uri) (env : list (string * string))
    (name : string) (token : option CancellationToken)
  : Async (option IFigSpecSuggestionsResult) :=
  match getCommand deps (commandLine terminalContext) [] (cursorPosition terminalContext),
        shellIntegrationCwd with
  | Some command, Some cwdUri =>
      let shellContext := mkShellContext env (fsPath cwdUri) "" name in
      parsedArguments <- await (ret (parseArguments deps command shellContext spec)) ;;
      r <- await (collectCompletionItemResult command prefix terminalContext
                    shellIntegrationCwd env parsedArguments []) ;;
      t <- now ;;
      if isCancellationRequested token t then ret None
      else
        let (completionItemResult, items) := r in
        let filesRequested :=
          match completionItemResult with
          | Some c => rf_filesRequested c
          | None => false
          end in
        let foldersRequested :=
          match completionItemResult with
          | Some c => rf_foldersRequested c
          | None => false
          end in
        ret (Some (mkResult filesRequested foldersRequested
                     (match currentArg parsedArguments with
                      | Some _ => true
                      | None => false
                      end)
                     items))
  | _, _ => ret None
  end.

(** ** [getFigSuggestions] *)

Section Suggest.

Variable terminalContext : TerminalContext.
Variable availableCommands : list ICompletionResource.
Variable prefix : string.
Variable tokenType : TokenType.
Variable shellIntegrationCwd : option Uri.
Variable env : list (string * string).
Variable name : string.
Variable precedingText : string.
Variable token : option CancellationToken.

(** [availableCommands.find(...)] for one spec label. *)
Definition findAvailableCommand (specLabel : string) : option ICompletionResource :=
  if osIsWindows deps then
    find_first (fun command => matchesSpecLabelRegExp deps (label command) specLabel)
      availableCommands
  else
    find_first (fun command => startsWith (label command) specLabel) availableCommands.

(** [availableCommands.filter(...)]: the command and its aliases. *)
Definition commandAndAliases (specLabel : string) : list ICompletionResource :=
  if osIsWindows deps then
    filter
      (fun command =>
         String.eqb specLabel
           (removeAnyFileExtension deps (nullish (definitionCommand command) (label command))))
      availableCommands
  else
    filter
      (fun command =>
         String.eqb specLabel (nullish (definitionCommand command) (label command)))
      availableCommands.

(** [commandAndAliases.some(e => precedingText.startsWith(`${e.label} `))] *)
Definition isFirstWord (specLabel : string) : bool :=
  if osIsWindows deps then
    existsb
      (fun e => startsWith precedingText (removeAnyFileExtension deps (label e) ++ " "))
      (commandAndAliases specLabel)
  else
    existsb (fun e => startsWith precedingText (label e ++ " ")) (commandAndAliases specLabel).

(** The candidate pushed for a spec label when the token is a command. *)
Definition commandItem (spec : FigNode) (specLabel : string)
    (availableCommand : ICompletionResource) : TerminalCompletionItem :=
  createCompletionItem deps (cursorPosition terminalContext) prefix
    (mkResource specLabel None None None)
    (Some (getFixSuggestionDescription spec)) (detail availableCommand) None.

(** [result.x ||= ...] and [result.items.push(...)] for one spec result. *)
Definition mergeSpecResult (result : IFigSpecSuggestionsResult)
    (completionItemResult : option IFigSpecSuggestionsResult) : IFigSpecSuggestionsResult :=
  let hasArg :=
    hasCurrentArg result
    || match completionItemResult with
       | Some r => hasCurrentArg r
       | None => false
       end in
  match completionItemResult with
  | Some r =>
      mkResult (filesRequested result || filesRequested r)
        (foldersRequested result || foldersRequested r)
        hasArg
        (items result ++ items r)
  | None =>
      mkResult (filesRequested result) (foldersRequested result) hasArg (items result)
  end.

(** The body of [for (const specLabel of specLabels)]. *)
Definition labelStep (spec : FigNode) (result : IFigSpecSuggestionsResult)
    (specLabel : string) : Async IFigSpecSuggestionsResult :=
  t <- now ;;
  match findAvailableCommand specLabel with
  | None => ret result
  | Some availableCommand =>
      if isCancellationRequested token t then ret result
      else if TokenType_eqb tokenType TokenType_Command then
        if negb (option_eqb TerminalCompletionItemKind_eqb
                   (kind availableCommand) (Some Kind_Alias)) then
          ret (mkResult (filesRequested result) (foldersRequested result)
                 (hasCurrentArg result)
                 (items result ++ [commandItem spec specLabel availableCommand]))
        else ret result
      else if negb (isFirstWord specLabel) then ret result
      else
        completionItemResult <-
          await (getFigSpecSuggestions spec terminalContext prefix shellIntegrationCwd
                   env name token) ;;
        ret (mergeSpecResult result completionItemResult)
  end.

(** The body of [for (const spec of specs)]. *)
Definition specStep (result : IFigSpecSuggestionsResult) (spec : FigNode)
  : Async IFigSpecSuggestionsResult :=
  match getFigSuggestionLabel (SpecArg_node spec) with
  | None => ret result
  | Some specLabels => forOf (labelStep spec) specLabels result
  end.

Definition emptyResult : IFigSpecSuggestionsResult := mkResult false false false [].

Definition getFigSuggestions (specs : list FigNode) : Async IFigSpecSuggestionsResult :=
  forOf specStep specs emptyResult.

End Suggest.

End Program.

Arguments emptyResult {TerminalCompletionItem}.

(** ** Closed forms used to state the properties *)

Section ClosedForms.

Variable TerminalCompletionItem : Type.
Variable Command : Type.
Variable deps : Imports TerminalCompletionItem Command.

(** The batches one pass yields. *)
Fixpoint passBatches (ctx : FigState) (triggered gens : list Generator)
  : list (option GeneratorState) :=
  match gens with
  | [] => []
  | g :: rest =>
      if existsb (Generator_eqb g) triggered then None :: passBatches ctx triggered rest
      else if declaresTemplate "filepaths" g || declaresTemplate "folders" g then
        Some (mkGeneratorState g None) :: passBatches ctx (g :: triggered) rest
      else
        Some (mkGeneratorState g (executeGenerator deps g ctx))
          :: passBatches ctx (g :: triggered) rest
  end.

(** The generators one pass executes. *)
Fixpoint passExecuted (triggered gens : list Generator) : list Generator :=
  match gens with
  | [] => []
  | g :: rest =>
      if existsb (Generator_eqb g) triggered then passExecuted triggered rest
      else if declaresTemplate "filepaths" g || declaresTemplate "folders" g then
        passExecuted (g :: triggered) rest
      else g :: passExecuted (g :: triggered) rest
  end.

(** The candidates of one batch. *)
Definition batchCandidates (prefix : string) (terminalContext : TerminalContext)
    (kind : TerminalCompletionItemKind) (b : option GeneratorState)
  : list TerminalCompletionItem :=
  flat_map (itemCandidates deps prefix terminalContext kind)
    (nullish (match b with
              | Some r => gs_request r
              | None => None
              end) []).

(** The candidates of a static source. *)
Definition staticCandidates (prefix : string) (terminalContext : TerminalContext)
    (kind : TerminalCompletionItemKind) (specArgs : option SpecArgs)
  : list TerminalCompletionItem :=
  match specArgs with
  | None => []
  | Some (SpecArgs_array l) => flat_map (arrayCandidates deps prefix terminalContext kind) l
  | Some (SpecArgs_record entries) =>
      map (fun '(label, item) => suggestionItem deps prefix terminalContext kind label item) entries
  end.

(** The generators attached to the current argument. *)
Definition generatorsOf (parsedArguments : ArgumentParserResult) : list Generator :=
  match currentArg parsedArguments with
  | Some arg => nullish (arg_generators arg) []
  | None => []
  end.

(** The candidates the generator loop pushes: every iteration of the loop
    over the generators consumes the batches of one whole pass. *)
Definition generatorCandidates (prefix : string) (terminalContext : TerminalContext)
    (shellIntegrationCwd : option Uri) (env : list (string * string))
    (parsedArguments : ArgumentParserResult) : list TerminalCompletionItem :=
  flat_map
    (fun _ : Generator =>
       flat_map (batchCandidates prefix terminalContext Kind_Argument)
         (passBatches (initialFigState terminalContext shellIntegrationCwd env) []
            (generatorsOf parsedArguments)))
    (generatorsOf parsedArguments).

(** An item has a usable name when its [name] is a non-empty string or a
    non-empty list of aliases. *)
Definition hasUsableName (item : SpecArg) : bool :=
  match nameOf item with
  | NameUndefined => false
  | NameString s => negb (String.eqb s "")
  | NameArray [] => false
  | NameArray (_ :: _) => true
  end.

(** [parsedArguments.currentArg?.suggestions] *)
Definition currentSuggestions (pa : ArgumentParserResult) : option SpecArgs :=
  match currentArg pa with
  | Some arg => arg_suggestions arg
  | None => None
  end.

(** Two results merged the way [getFigSuggestions] accumulates them. *)
Definition mergeResults (a b : IFigSpecSuggestionsResult TerminalCompletionItem)
  : IFigSpecSuggestionsResult TerminalCompletionItem :=
  mkResult (filesRequested a || filesRequested b)
    (foldersRequested a || foldersRequested b)
    (hasCurrentArg a || hasCurrentArg b)
    (items a ++ items b).

(** The spec labels of a batch, in the order the two loops visit them. *)
Definition specLabelPairs (specs : list FigNode) : list (FigNode * string) :=
  flat_map
    (fun spec => map (pair spec) (nullish (getFigSuggestionLabel (SpecArg_node spec)) []))
    specs.

(** What each spec label contributes on its own: the loop body run on an
    empty result, one label after the other. *)
Fixpoint perLabelResults (terminalContext : TerminalContext)
    (availableCommands : list ICompletionResource) (prefix : string)
    (tokenType : TokenType) (shellIntegrationCwd : option Uri)
    (env : list (string * string)) (name precedingText : string)
    (token : option CancellationToken) (pairs : list (FigNode * string))
  : Async (list (IFigSpecSuggestionsResult TerminalCompletionItem)) :=
  match pairs with
  | [] => ret []
  | (spec, specLabel) :: rest =>
      r <- labelStep deps terminalContext availableCommands prefix tokenType
             shellIntegrationCwd env name precedingText token spec emptyResult specLabel ;;
      rs <- perLabelResults terminalContext availableCommands prefix tokenType
              shellIntegrationCwd env name precedingText token rest ;;
      ret (r :: rs)
  end.

(** The file-extension handling of the two platforms: on Windows labels
    are compared with their extension removed. *)
Definition shownLabel (s : string) : string :=
  if osIsWindows deps then removeAnyFileExtension deps s else s.

(** A cancellation token never goes back to "not requested". *)
Definition monotone (tk : CancellationToken) : Prop :=
  forall t t', t <= t' -> tk t = true -> tk t' = true.

(** A cancellation token nobody touches during the observation. *)
Definition stable (token : option CancellationToken) : Prop :=
  forall tk, token = Some tk -> forall t t', tk t = tk t'.

End ClosedForms.

(** ** A concrete host on which the program runs *)

Module Demo.

(** The completion item the host builds: the arguments it was created from. *)
Record Item : Type := mkItem {
  it_cursorPosition : Z;
  it_prefix : string;
  it_resource : ICompletionResource;
  it_detail : option string;
  it_documentation : option string;
  it_kind : option TerminalCompletionItemKind
}.

Definition node (n : string) : SpecArg := SpecArg_node (mkFigNode (NameString n) None).

Definition gBranches : Generator := mkGenerator None (Some "git branch").
Definition gTags : Generator := mkGenerator None (Some "git tag").
Definition gFiles : Generator := mkGenerator (Some (Template_one "filepaths")) None.
Definition gFolders : Generator := mkGenerator (Some (Template_many ["folders"])) None.

(** [git branch] lists two branches, one under two names, and an entry
    without a name; any other script lists one tag. *)
Definition execute (g : Generator) (ctx : FigState) : option (list SpecArg) :=
  match gen_script g with
  | Some s =>
      if String.eqb s "git branch" then
        Some [SpecArg_node (mkFigNode (NameString "main") (Some "default branch"));
              SpecArg_node (mkFigNode NameUndefined (Some "detached"));
              SpecArg_node (mkFigNode (NameArray ["dev"; "develop"]) None)]
      else Some [node "v1"]
  | None => None
  end.

(** A spec that only offers subcommands and options. *)
Definition paSubcommands : ArgumentParserResult :=
  mkArgumentParserResult
    (mkCompletionObj
       (Some (SpecArgs_record [("commit", node "commit"); ("push", node "push")]))
       (Some (SpecArgs_array
                [SpecArg_node (mkFigNode (NameArray ["-h"; "--help"]) (Some "help"))])))
    None 3.

(** The cursor is on an argument fed by one generator and one static entry. *)
Definition paBranch : ArgumentParserResult :=
  mkArgumentParserResult (mkCompletionObj None None)
    (Some (mkFigArg (Some (SpecArgs_array [SpecArg_string "HEAD"])) (Some [gBranches])))
    4.

(** The same generator definition attached twice. *)
Definition paTwice : ArgumentParserResult :=
  mkArgumentParserResult (mkCompletionObj None None)
    (Some (mkFigArg None (Some [gBranches; gBranches])))
    4.

(** A file argument while argument values are being suggested. *)
Definition paFiles : ArgumentParserResult :=
  mkArgumentParserResult (mkCompletionObj None None)
    (Some (mkFigArg None (Some [gFiles; gFolders])))
    4.

(** A file argument while only option names are being suggested. *)
Definition paFilesOptionsOnly : ArgumentParserResult :=
  mkArgumentParserResult
    (mkCompletionObj None (Some (SpecArgs_array [node "--all"])))
    (Some (mkFigArg None (Some [gFiles])))
    2.

Definition parse (command : string) (ctx : ShellContext) (spec : FigNode)
  : ArgumentParserResult :=
  match node_description spec with
  | Some d => if String.eqb d "porcelain" then paSubcommands else paBranch
  | None => paBranch
  end.

Definition host : Imports Item string :=
  mkImports 4 1 2 false (fun s => s) (fun _ _ => false)
    (fun line _ _ => if String.eqb line "" then None else Some line)
    parse mkItem execute.

Definition world0 : World := mkWorld 0 [].

Definition tc : TerminalContext := mkTerminalContext "git " 4.
Definition home : option Uri := Some (mkUri "/home/user").

Definition git : ICompletionResource := mkResource "git" None (Some "/usr/bin/git") None.
Definition g_alias : ICompletionResource :=
  mkResource "g" (Some "git") None (Some Kind_Alias).

Definition specPorcelain : FigNode := mkFigNode (NameString "git") (Some "porcelain").
Definition specCheckout : FigNode := mkFigNode (NameString "git") (Some "checkout").
Definition specUnknown : FigNode := mkFigNode (NameString "svn") None.

(** A token that becomes cancelled at time [t0]. *)
Definition cancelledFrom (t0 : nat) : CancellationToken := fun t => Nat.leb t0 t.

End Demo.

(** ** Further inputs for the concrete host *)

Module Samples.

(** A command whose label only starts with the label of the git spec. *)
Definition gitk : ICompletionResource := mkResource "gitk" None (Some "/usr/bin/gitk") None.

(** A spec without a name. *)
Definition specNameless : FigNode := mkFigNode (NameArray []) (Some "unnamed").

(** What a generator may produce: an entry with an empty name, a plain
    string, and a named entry. *)
Definition produced : list SpecArg :=
  [SpecArg_node (mkFigNode (NameString "") None);
   SpecArg_string "HEAD";
   SpecArg_node (mkFigNode (NameString "main") (Some "default branch"))].

End Samples.

(** ** The order in which a JS object enumerates its properties *)

Section ObjectOrder.

Variable A : Type.

(** The value of a decimal digit. *)
Definition digitValue (c : Ascii.ascii) : option N :=
  let n := Ascii.N_of_ascii c in
  if (48 <=? n)%N && (n <=? 57)%N then Some (n - 48)%N else None.

Fixpoint digitsValue (acc : N) (s : string) : option N :=
  match s with
  | EmptyString => Some acc
  | String c rest =>
      match digitValue c with
      | Some d => digitsValue (10 * acc + d)%N rest
      | None => None
      end
  end.

(** A property key is an array index when it is the canonical decimal
    form of an integer from 0 to 2^32 - 2. *)
Definition arrayIndex (k : string) : option N :=
  match k with
  | EmptyString => None
  | String c rest =>
      if (Ascii.N_of_ascii c =? 48)%N && negb (String.eqb rest "") then None
      else
        match digitsValue 0 k with
        | Some n => if (n <=? 4294967294)%N then Some n else None
        | None => None
        end
  end.

Fixpoint insertIndexed (n : N) (entry : string * A) (l : list (N * (string * A)))
  : list (N * (string * A)) :=
  match l with
  | [] => [(n, entry)]
  | (m, x) :: rest =>
      if (n <? m)%N then (n, entry) :: (m, x) :: rest
      else (m, x) :: insertIndexed n entry rest
  end.

(** The properties whose key is an array index, in ascending order. *)
Fixpoint indexedProperties (properties : list (string * A)) : list (N * (string * A)) :=
  match properties with
  | [] => []
  | (k, v) :: rest =>
      match arrayIndex k with
      | Some n => insertIndexed n (k, v) (indexedProperties rest)
      | None => indexedProperties rest
      end
  end.

(** The other properties, in the order they were created. *)
Definition namedProperties (properties : list (string * A)) : list (string * A) :=
  filter (fun entry => match arrayIndex (fst entry) with Some _ => false | None => true end)
    properties.

(** A list of numbers goes up. *)
Fixpoint ascending (l : list N) : bool :=
  match l with
  | [] => true
  | a :: rest =>
      match rest with
      | [] => true
      | b :: _ => (a <=? b)%N && ascending rest
      end
  end.

(** [Object.entries(o)] for an object given by its properties in the order
    they were declared: the array indices first, ascending, then the other
    keys in declaration order. *)
Definition Object_entries (properties : list (string * A)) : list (string * A) :=
  map snd (indexedProperties properties) ++ namedProperties properties.

End ObjectOrder.

(** A keyed mapping as the program receives it: [addSuggestions] reads it
    through [Object.entries]. *)
Definition recordOfObject (declared : list (string * SpecArg)) : SpecArgs :=
  SpecArgs_record (Object_entries declared).

(** ** Promises that reject *)

Module Rejecting.

(** How an awaited promise settles. *)
Inductive Settled (A : Type) : Type :=
| Fulfilled (a : A)
| Rejected (reason : string).

Arguments Fulfilled {A} a.
Arguments Rejected {A} reason.

(** Sequencing inside an [async] function: an exception that nothing
    catches ends the function and rejects its promise. *)
Definition bindS {A B} (m : Async (Settled A)) (f : A -> Async (Settled B))
  : Async (Settled B) :=
  bind m (fun s =>
            match s with
            | Fulfilled a => f a
            | Rejected reason => ret (Rejected reason)
            end).

Definition lift {A} (m : Async A) : Async (Settled A) :=
  bind m (fun a => ret (Fulfilled a)).

(** [for (const x of l) { acc = f acc x }] where the body may throw. *)
Fixpoint forOf {A S} (f : S -> A -> Async (Settled S)) (l : list A) (acc : S)
  : Async (Settled S) :=
  match l with
  | [] => ret (Fulfilled acc)
  | x :: l' => bindS (f acc x) (fun acc' => forOf f l' acc')
  end.

Section Program.

Variable TerminalCompletionItem : Type.
Variable Command : Type.
Variable deps : Imports TerminalCompletionItem Command.

(** What the signatures of [Imports] leave out: the calls of the source that
    can throw. *)
Record Failures : Type := mkFailures {
  (** The promise of [parseArguments] is rejected for this command, shell
      context and spec. *)
  parseArgumentsRejects : Command -> ShellContext -> FigNode -> bool;
  (** [new RegExp(`${specLabel}(\\.[^ ]+)?$`)] throws for this spec label. *)
  invalidRegExp : string -> bool
}.

Variable failures : Failures.

(** The promise [parseArguments(command, shellContext, spec)] returns. *)
Definition parseArgumentsPromise (command : Command) (shellContext : ShellContext)
    (spec : FigNode) : Async (Settled ArgumentParserResult) :=
  if parseArgumentsRejects failures command shellContext spec then
    ret (Rejected "parseArguments")
  else ret (Fulfilled (parseArguments deps command shellContext spec)).

Definition getFigSpecSuggestions (spec : FigNode) (terminalContext : TerminalContext)
    (prefix : string) (shellIntegrationCwd : option Uri) (env : list (string * string))
    (name : string) (token : option CancellationToken)
  : Async (Settled (option (IFigSpecSuggestionsResult TerminalCompletionItem))) :=
  match getCommand deps (commandLine terminalContext) [] (cursorPosition terminalContext),
        shellIntegrationCwd with
  | Some command, Some cwdUri =>
      let shellContext := mkShellContext env (fsPath cwdUri) "" name in
      bindS (await (parseArgumentsPromise command shellContext spec))
        (fun parsedArguments =>
           lift
             (r <- await (collectCompletionItemResult deps command prefix terminalContext
                            shellIntegrationCwd env parsedArguments []) ;;
              t <- now ;;
              if isCancellationRequested token t then ret None
              else
                let (completionItemResult, items) := r in
                let filesRequested :=
                  match completionItemResult with
                  | Some c => rf_filesRequested c
                  | None => false
                  end in
                let foldersRequested :=
                  match completionItemResult with
                  | Some c => rf_foldersRequested c
                  | None => false
                  end in
                ret (Some (mkResult filesRequested foldersRequested
                             (match currentArg parsedArguments with
                              | Some _ => true
                              | None => false
                              end)
                             items))))
  | _, _ => ret (Fulfilled None)
  end.

Section Suggest.

Variable terminalContext : TerminalContext.
Variable availableCommands : list ICompletionResource.
Variable prefix : string.
Variable tokenType : TokenType.
Variable shellIntegrationCwd : option Uri.
Variable env : list (string * string).
Variable name : string.
Variable precedingText : string.
Variable token : option CancellationToken.

(** [availableCommands.find(...)]: on Windows the callback builds the
    RegExp, so it throws at the first command when the pattern is invalid. *)
Definition findAvailableCommand (specLabel : string)
  : Settled (option ICompletionResource) :=
  if osIsWindows deps then
    match availableCommands with
    | [] => Fulfilled None
    | _ :: _ =>
        if invalidRegExp failures specLabel then Rejected "SyntaxError"
        else
          Fulfilled
            (find_first (fun command => matchesSpecLabelRegExp deps (label command) specLabel)
               availableCommands)
    end
  else
    Fulfilled
      (find_first (fun command => startsWith (label command) specLabel) availableCommands).

(** The body of [for (const specLabel of specLabels)]. *)
Definition labelStep (spec : FigNode)
    (result : IFigSpecSuggestionsResult TerminalCompletionItem) (specLabel : string)
  : Async (Settled (IFigSpecSuggestionsResult TerminalCompletionItem)) :=
  t <- now ;;
  match findAvailableCommand specLabel with
  | Rejected reason => ret (Rejected reason)
  | Fulfilled None => ret (Fulfilled result)
  | Fulfilled (Some availableCommand) =>
      if isCancellationRequested token t then ret (Fulfilled result)
      else if TokenType_eqb tokenType TokenType_Command then
        if negb (option_eqb TerminalCompletionItemKind_eqb
                   (kind availableCommand) (Some Kind_Alias)) then
          ret (Fulfilled
                 (mkResult (filesRequested result) (foldersRequested result)
                    (hasCurrentArg result)
                    (items result
                     ++ [commandItem deps terminalContext prefix spec specLabel
                           availableCommand])))
        else ret (Fulfilled result)
      else if negb (isFirstWord deps availableCommands precedingText specLabel) then
        ret (Fulfilled result)
      else
        bindS (await (getFigSpecSuggestions spec terminalContext prefix shellIntegrationCwd
                        env name token))
          (fun completionItemResult =>
             ret (Fulfilled (mergeSpecResult result completionItemResult)))
  end.

(** The body of [for (const spec of specs)]. *)
Definition specStep (result : IFigSpecSuggestionsResult TerminalCompletionItem)
    (spec : FigNode) : Async (Settled (IFigSpecSuggestionsResult TerminalCompletionItem)) :=
  match getFigSuggestionLabel (SpecArg_node spec) with
  | None => ret (Fulfilled result)
  | Some specLabels => forOf (labelStep spec) specLabels result
  end.

Definition getFigSuggestions (specs : list FigNode)
  : Async (Settled (IFigSpecSuggestionsResult TerminalCompletionItem)) :=
  forOf specStep specs emptyResult.

(** No call made for this spec label throws. *)
Definition settles (spec : FigNode) (specLabel : string) : Prop :=
  (forall command shellContext, parseArgumentsRejects failures command shellContext spec = false)
  /\ (osIsWindows deps = false \/ invalidRegExp failures specLabel = false).

End Suggest.

End Program.

End Rejecting.

(** ** The per-spec results, as the specification speaks of them *)

Section PerSpec.

Variable TerminalCompletionItem : Type.
Variable Command : Type.
Variable deps : Imports TerminalCompletionItem Command.
Variable terminalContext : TerminalContext.
Variable availableCommands : list ICompletionResource.
Variable prefix : string.
Variable tokenType : TokenType.
Variable shellIntegrationCwd : option Uri.
Variable env : list (string * string).
Variable name : string.
Variable precedingText : string.
Variable token : option CancellationToken.

(** A spec label is resolved against its spec when a command is available
    for it, cancellation is not requested, the token is not a command and
    the label is the first word of the preceding text. *)
Definition resolved (specLabel : string) (w : World) : bool :=
  match findAvailableCommand deps availableCommands specLabel with
  | Some _ =>
      negb (isCancellationRequested token (clock w))
      && negb (TokenType_eqb tokenType TokenType_Command)
      && isFirstWord deps availableCommands precedingText specLabel
  | None => false
  end.

(** The result of one spec label on its own, and the world it leaves: what
    [getFigSpecSuggestions] returns for a resolved label (nothing when it
    returns undefined), the command candidate for a command token, nothing
    otherwise. *)
Definition specLabelResult (spec : FigNode) (specLabel : string) (w : World)
  : IFigSpecSuggestionsResult TerminalCompletionItem * World :=
  if resolved specLabel w then
    let r := getFigSpecSuggestions deps spec terminalContext prefix shellIntegrationCwd env
               name token w in
    (match fst r with
     | Some specResult => specResult
     | None => emptyResult
     end,
     mkWorld (S (clock (snd r))) (executed (snd r)))
  else
    match findAvailableCommand deps availableCommands specLabel with
    | Some availableCommand =>
        if negb (isCancellationRequested token (clock w))
           && TokenType_eqb tokenType TokenType_Command
           && negb (option_eqb TerminalCompletionItemKind_eqb
                      (kind availableCommand) (Some Kind_Alias))
        then
          (mkResult false false false
             [commandItem deps terminalContext prefix spec specLabel availableCommand], w)
        else (emptyResult, w)
    | None => (emptyResult, w)
    end.

(** The results of the spec labels of a batch, one after the other. *)
Fixpoint specLabelResults (pairs : list (FigNode * string)) (w : World)
  : list (IFigSpecSuggestionsResult TerminalCompletionItem) * World :=
  match pairs with
  | [] => ([], w)
  | (spec, specLabel) :: rest =>
      let r := specLabelResult spec specLabel w in
      let rs := specLabelResults rest (snd r) in
      (fst r :: fst rs, snd rs)
  end.

End PerSpec.

(** ** Inputs on which a promise rejects, and a mapping with numeric keys *)

Module Faulty.

(** A spec the argument parser rejects. *)
Definition specBroken : FigNode := mkFigNode (NameString "git") (Some "broken").

Definition failures : Rejecting.Failures string :=
  Rejecting.mkFailures
    (fun _ _ spec =>
       match node_description spec with
       | Some d => String.eqb d "broken"
       | None => false
       end)
    (fun _ => false).

(** The mapping { b: ..., 2: ..., 1: ... } in the order it is written. *)
Definition declared : list (string * SpecArg) :=
  [("b", Demo.node "b"); ("2", Demo.node "two"); ("1", Demo.node "one")].

End Faulty.

(** * Properties *)

Section Properties.

Variable TerminalCompletionItem : Type.
Variable Command : Type.
Variable deps : Imports TerminalCompletionItem Command.

Local Abbreviation Result := (IFigSpecSuggestionsResult TerminalCompletionItem).
Local Abbreviation Acc := (Collected TerminalCompletionItem).

(** ** The monad *)

Lemma bind_run {A B} (m : Async A) (f : A -> Async B) (w : World) :
  bind m f w = f (fst (m w)) (snd (m w)).
Proof. unfold bind. destruct (m w); reflexivity. Qed.

Lemma await_run {A} (m : Async A) (w : World) :
  await m w = (fst (m w), mkWorld (S (clock (snd (m w)))) (executed (snd (m w)))).
Proof. unfold await. rewrite bind_run. reflexivity. Qed.

Lemma World_eta (w : World) : mkWorld (clock w) (executed w) = w.
Proof. destruct w; reflexivity. Qed.

(** A loop whose body leaves accumulator and world alone does nothing. *)
Lemma forOf_skip {A S} (f : S -> A -> Async S) (l : list A) (acc : S) (w : World) :
  (forall x, In x l -> f acc x w = (acc, w)) -> forOf f l acc w = (acc, w).
Proof.
  induction l as [|x l IH]; intros H; simpl.
  - reflexivity.
  - rewrite bind_run, (H x (or_introl eq_refl)). simpl.
    apply IH. intros y Hy. apply H. right; exact Hy.
Qed.

(** ** Pushing candidates *)

Lemma fold_push {A} (g : A -> list TerminalCompletionItem) (l : list A) (st : Acc) :
  fold_left
    (fun st item =>
       mkCollected (c_filesRequested st) (c_foldersRequested st) (c_items st ++ g item))
    l st
  = mkCollected (c_filesRequested st) (c_foldersRequested st) (c_items st ++ flat_map g l).
Proof.
  revert st. induction l as [|x l IH]; intros st; simpl.
  - rewrite app_nil_r. destruct st; reflexivity.
  - rewrite IH. simpl. rewrite <- app_assoc. reflexivity.
Qed.

Lemma pushStatic_run prefix tc kind sa (st : Acc) :
  pushStatic deps prefix tc kind sa st
  = mkCollected (c_filesRequested st) (c_foldersRequested st)
      (c_items st ++ staticCandidates deps prefix tc kind (Some sa)).
Proof.
  destruct sa as [l|entries]; simpl.
  - apply fold_push.
  - revert st. induction entries as [|[k v] entries IH]; intros st; simpl.
    + rewrite app_nil_r. destruct st; reflexivity.
    + rewrite IH. simpl. rewrite <- app_assoc. reflexivity.
Qed.

(** ** Templates *)

Lemma applyTemplates_items g (st : Acc) :
  c_items (applyTemplates g st) = c_items st.
Proof.
  unfold applyTemplates. destruct (truthyTemplate (gen_template g)); [|reflexivity].
  generalize (match gen_template g with Some t => templatesOf t | None => [] end).
  intros l. revert st. induction l as [|t l IH]; intros st; simpl; [reflexivity|].
  rewrite IH. destruct (String.eqb t "filepaths"); [reflexivity|].
  destruct (String.eqb t "folders"); reflexivity.
Qed.

Lemma templates_fold_files (l : list string) (st : Acc) :
  c_filesRequested
    (fold_left
       (fun st template =>
          if String.eqb template "filepaths" then
            mkCollected true (c_foldersRequested st) (c_items st)
          else if String.eqb template "folders" then
            mkCollected (c_filesRequested st) true (c_items st)
          else st) l st)
  = c_filesRequested st || existsb (String.eqb "filepaths") l.
Proof.
  revert st. induction l as [|t l IH]; intros st; cbn [fold_left existsb].
  - rewrite orb_false_r. reflexivity.
  - rewrite IH. rewrite (String.eqb_sym "filepaths" t).
    destruct (String.eqb t "filepaths") eqn:E; cbn [c_filesRequested orb].
    + rewrite orb_true_r. reflexivity.
    + destruct (String.eqb t "folders"); reflexivity.
Qed.

Lemma templates_fold_folders (l : list string) (st : Acc) :
  c_foldersRequested
    (fold_left
       (fun st template =>
          if String.eqb template "filepaths" then
            mkCollected true (c_foldersRequested st) (c_items st)
          else if String.eqb template "folders" then
            mkCollected (c_filesRequested st) true (c_items st)
          else st) l st)
  = c_foldersRequested st || existsb (String.eqb "folders") l.
Proof.
  revert st. induction l as [|t l IH]; intros st; cbn [fold_left existsb].
  - rewrite orb_false_r. reflexivity.
  - rewrite IH. rewrite (String.eqb_sym "folders" t).
    destruct (String.eqb t "filepaths") eqn:E; cbn [c_foldersRequested orb].
    + apply String.eqb_eq in E. subst t. reflexivity.
    + destruct (String.eqb t "folders"); cbn [c_foldersRequested orb];
        [rewrite orb_true_r|]; reflexivity.
Qed.

Lemma applyTemplates_files g (st : Acc) :
  c_filesRequested (applyTemplates g st)
  = c_filesRequested st || declaresTemplate "filepaths" g.
Proof.
  unfold applyTemplates, declaresTemplate.
  destruct (truthyTemplate (gen_template g)) eqn:T; simpl.
  - rewrite templates_fold_files. destruct (gen_template g); reflexivity.
  - rewrite orb_false_r. reflexivity.
Qed.

Lemma applyTemplates_folders g (st : Acc) :
  c_foldersRequested (applyTemplates g st)
  = c_foldersRequested st || declaresTemplate "folders" g.
Proof.
  unfold applyTemplates, declaresTemplate.
  destruct (truthyTemplate (gen_template g)) eqn:T; simpl.
  - rewrite templates_fold_folders. destruct (gen_template g); reflexivity.
  - rewrite orb_false_r. reflexivity.
Qed.

(** ** One pass of the generators *)

Lemma triggerPass_run ctx gens triggered w :
  triggerPass deps ctx triggered gens w
  = (passBatches deps ctx triggered gens,
     mkWorld (clock w) (executed w ++ map (pair (clock w)) (passExecuted triggered gens))).
Proof.
  revert triggered w. induction gens as [|g rest IH]; intros triggered w; simpl.
  - unfold ret. rewrite app_nil_r, World_eta. reflexivity.
  - destruct (existsb (Generator_eqb g) triggered).
    + rewrite bind_run, IH. reflexivity.
    + destruct (declaresTemplate "filepaths" g || declaresTemplate "folders" g).
      * rewrite bind_run, IH. reflexivity.
      * rewrite bind_run. unfold logExecution. cbn [fst snd].
        rewrite bind_run, IH. cbn [fst snd clock executed ret map].
        rewrite <- app_assoc. reflexivity.
Qed.

Lemma passBatches_length ctx gens triggered :
  length (passBatches deps ctx triggered gens) = length gens.
Proof.
  revert triggered. induction gens as [|g rest IH]; intros triggered; simpl.
  - reflexivity.
  - destruct (existsb (Generator_eqb g) triggered); simpl; [now rewrite IH|].
    destruct (declaresTemplate "filepaths" g || declaresTemplate "folders" g);
      simpl; now rewrite IH.
Qed.

Lemma triggerGenerators_run command tc cwd env pa w :
  triggerGenerators deps (autocompleteState command tc cwd env pa) pa w
  = (passBatches deps (initialFigState tc cwd env) [] (generatorsOf pa),
     mkWorld (clock w)
       (executed w ++ map (pair (clock w)) (passExecuted [] (generatorsOf pa)))).
Proof.
  unfold triggerGenerators, generatorsOf. cbn [figState autocompleteState].
  destruct (currentArg pa) as [arg|].
  - apply triggerPass_run.
  - unfold ret. simpl. rewrite app_nil_r, World_eta. reflexivity.
Qed.

Lemma consumeBatch_run prefix tc kind (st : Acc) b w :
  consumeBatch deps prefix tc kind st b w
  = (mkCollected (c_filesRequested st) (c_foldersRequested st)
       (c_items st ++ batchCandidates deps prefix tc kind b),
     mkWorld (S (clock w)) (executed w)).
Proof.
  unfold consumeBatch. rewrite bind_run, await_run. cbn [fst snd ret].
  rewrite fold_push. reflexivity.
Qed.

Lemma consumeBatches_run prefix tc kind bs (st : Acc) w :
  forOf (consumeBatch deps prefix tc kind) bs st w
  = (mkCollected (c_filesRequested st) (c_foldersRequested st)
       (c_items st ++ flat_map (batchCandidates deps prefix tc kind) bs),
     mkWorld (clock w + length bs) (executed w)).
Proof.
  revert st w. induction bs as [|b bs IH]; intros st w; simpl.
  - unfold ret. rewrite app_nil_r, Nat.add_0_r, World_eta. destruct st; reflexivity.
  - rewrite bind_run, consumeBatch_run. cbn [fst snd]. rewrite IH.
    cbn [c_filesRequested c_foldersRequested c_items clock executed].
    rewrite <- app_assoc, Nat.add_succ_r. reflexivity.
Qed.

(** The batches and the executions of one pass over the current argument. *)
Local Abbreviation batchesOf tc cwd env pa :=
  (passBatches deps (initialFigState tc cwd env) [] (generatorsOf pa)).

Lemma generatorStep_run command prefix tc cwd env kind pa (st : Acc) g w :
  generatorStep deps command prefix tc cwd env kind pa st g w
  = (mkCollected
       (c_filesRequested st || declaresTemplate "filepaths" g)
       (c_foldersRequested st || declaresTemplate "folders" g)
       (c_items st ++ flat_map (batchCandidates deps prefix tc kind) (batchesOf tc cwd env pa)),
     mkWorld (clock w + length (generatorsOf pa))
       (executed w ++ map (pair (clock w)) (passExecuted [] (generatorsOf pa)))).
Proof.
  unfold generatorStep. rewrite bind_run, triggerGenerators_run. cbn [fst snd].
  rewrite consumeBatches_run. cbn [clock executed].
  rewrite applyTemplates_files, applyTemplates_folders, applyTemplates_items,
    passBatches_length.
  reflexivity.
Qed.

(** The loop over the generators: the flags are the disjunction over the
    generators seen, and every iteration pushes the candidates of a whole
    pass and executes a whole pass. *)
Lemma generatorLoop_run command prefix tc cwd env kind pa gens (st : Acc) w :
  let r := forOf (generatorStep deps command prefix tc cwd env kind pa) gens st w in
  c_filesRequested (fst r)
    = c_filesRequested st || existsb (declaresTemplate "filepaths") gens
  /\ c_foldersRequested (fst r)
    = c_foldersRequested st || existsb (declaresTemplate "folders") gens
  /\ c_items (fst r)
    = c_items st
      ++ flat_map
           (fun _ => flat_map (batchCandidates deps prefix tc kind) (batchesOf tc cwd env pa))
           gens
  /\ clock (snd r) = clock w + length gens * length (generatorsOf pa)
  /\ executions (snd r)
    = executions w ++ flat_map (fun _ => passExecuted [] (generatorsOf pa)) gens.
Proof.
  revert st w. induction gens as [|g gens IH]; intros st w; cbn zeta.
  - simpl. rewrite !orb_false_r, !app_nil_r, Nat.add_0_r. repeat split.
  - cbn [forOf]. rewrite bind_run, generatorStep_run. cbn [fst snd].
    specialize (IH
      (mkCollected
         (c_filesRequested st || declaresTemplate "filepaths" g)
         (c_foldersRequested st || declaresTemplate "folders" g)
         (c_items st
          ++ flat_map (batchCandidates deps prefix tc kind) (batchesOf tc cwd env pa)))
      (mkWorld (clock w + length (generatorsOf pa))
         (executed w ++ map (pair (clock w)) (passExecuted [] (generatorsOf pa))))).
    cbn zeta in IH. destruct IH as (H1 & H2 & H3 & H4 & H5).
    rewrite H1, H2, H3, H4, H5.
    cbn [c_filesRequested c_foldersRequested c_items clock executed existsb flat_map length].
    rewrite <- !orb_assoc, <- !app_assoc. repeat split.
    + lia.
    + unfold executions. cbn [executed]. rewrite map_app, map_map. cbn [snd].
      rewrite map_id, <- app_assoc. reflexivity.
Qed.

(** ** [addSuggestions] *)

Lemma addSuggestions_plain command prefix tc cwd env specArgs kind (st : Acc) w :
  addSuggestions deps command prefix tc cwd env specArgs kind None st w
  = (mkCollected (c_filesRequested st) (c_foldersRequested st)
       (c_items st ++ staticCandidates deps prefix tc kind specArgs), w).
Proof.
  unfold addSuggestions. rewrite bind_run.
  replace (match kind with Kind_Argument | _ => ret st end) with (ret st)
    by (destruct kind; reflexivity).
  cbn [fst snd ret]. destruct specArgs as [sa|].
  - unfold ret. rewrite pushStatic_run. reflexivity.
  - unfold ret. simpl. rewrite app_nil_r. destruct st; reflexivity.
Qed.

Lemma addSuggestions_argument command prefix tc cwd env specArgs pa (st : Acc) w :
  let r := addSuggestions deps command prefix tc cwd env specArgs Kind_Argument (Some pa) st w in
  c_filesRequested (fst r)
    = c_filesRequested st || existsb (declaresTemplate "filepaths") (generatorsOf pa)
  /\ c_foldersRequested (fst r)
    = c_foldersRequested st || existsb (declaresTemplate "folders") (generatorsOf pa)
  /\ c_items (fst r)
    = c_items st ++ generatorCandidates deps prefix tc cwd env pa
      ++ staticCandidates deps prefix tc Kind_Argument specArgs
  /\ clock (snd r) = clock w + length (generatorsOf pa) * length (generatorsOf pa)
  /\ executions (snd r)
    = executions w
      ++ flat_map (fun _ => passExecuted [] (generatorsOf pa)) (generatorsOf pa).
Proof.
  cbn zeta. unfold addSuggestions. rewrite bind_run.
  pose proof (generatorLoop_run command prefix tc cwd env Kind_Argument pa
                (generatorsOf pa) st w) as L. cbn zeta in L.
  unfold generatorCandidates.
  assert (E : match currentArg pa with
              | Some arg =>
                  match arg_generators arg with
                  | Some generators =>
                      forOf (generatorStep deps command prefix tc cwd env Kind_Argument pa)
                        generators st
                  | None => ret st
                  end
              | None => ret st
              end
              = forOf (generatorStep deps command prefix tc cwd env Kind_Argument pa)
                  (generatorsOf pa) st).
  { unfold generatorsOf. destruct (currentArg pa) as [arg|]; [|reflexivity].
    destruct (arg_generators arg); reflexivity. }
  rewrite E. clear E.
  destruct L as (H1 & H2 & H3 & H4 & H5).
  set (r := forOf _ _ st w) in *.
  destruct specArgs as [sa|]; cbn [ret fst snd].
  - rewrite pushStatic_run. cbn [c_filesRequested c_foldersRequested c_items].
    rewrite H1, H2, H3, H4, H5, <- app_assoc. repeat split.
  - rewrite H1, H2, H3, H4, H5. cbn [staticCandidates]. rewrite app_nil_r. repeat split.
Qed.

(** ** [collectCompletionItemResult] *)

Local Abbreviation argsOn pa := (flagSet (suggestionFlags pa) (SuggestionFlag_Args deps)).
Local Abbreviation subcommandsOn pa :=
  (flagSet (suggestionFlags pa) (SuggestionFlag_Subcommands deps)).
Local Abbreviation optionsOn pa := (flagSet (suggestionFlags pa) (SuggestionFlag_Options deps)).

Lemma collect_run command prefix tc cwd env pa items0 w :
  let r := collectCompletionItemResult deps command prefix tc cwd env pa items0 w in
  fst (fst r)
    = Some (mkRequestedFlags
              (argsOn pa && existsb (declaresTemplate "filepaths") (generatorsOf pa))
              (argsOn pa && existsb (declaresTemplate "folders") (generatorsOf pa)))
  /\ snd (fst r)
    = items0
      ++ (if argsOn pa then
            generatorCandidates deps prefix tc cwd env pa
            ++ staticCandidates deps prefix tc Kind_Argument (currentSuggestions pa)
          else [])
      ++ (if subcommandsOn pa then
            staticCandidates deps prefix tc Kind_Method (subcommands (completionObj pa))
          else [])
      ++ (if optionsOn pa then
            staticCandidates deps prefix tc Kind_Flag (options (completionObj pa))
          else [])
  /\ executions (snd r)
    = executions w
      ++ (if argsOn pa then
            flat_map (fun _ => passExecuted [] (generatorsOf pa)) (generatorsOf pa)
          else [])
  /\ clock w <= clock (snd r).
Proof.
  cbn zeta. unfold collectCompletionItemResult, currentSuggestions.
  rewrite !bind_run.
  set (st0 := mkCollected false false items0).
  set (m1 := if argsOn pa then _ else ret st0).
  assert (A :
    c_filesRequested (fst (m1 w))
      = argsOn pa && existsb (declaresTemplate "filepaths") (generatorsOf pa)
    /\ c_foldersRequested (fst (m1 w))
      = argsOn pa && existsb (declaresTemplate "folders") (generatorsOf pa)
    /\ c_items (fst (m1 w))
      = items0
        ++ (if argsOn pa then
              generatorCandidates deps prefix tc cwd env pa
              ++ staticCandidates deps prefix tc Kind_Argument
                   match currentArg pa with
                   | Some arg => arg_suggestions arg
                   | None => None
                   end
            else [])
    /\ executions (snd (m1 w))
      = executions w
        ++ (if argsOn pa then
              flat_map (fun _ => passExecuted [] (generatorsOf pa)) (generatorsOf pa)
            else [])
    /\ clock w <= clock (snd (m1 w))).
  { subst m1. destruct (argsOn pa).
    - rewrite await_run. cbn [fst snd].
      pose proof (addSuggestions_argument command prefix tc cwd env
                    (match currentArg pa with
                     | Some arg => arg_suggestions arg
                     | None => None
                     end) pa st0 w) as H.
      cbn zeta in H. destruct H as (H1 & H2 & H3 & H4 & H5).
      unfold executions in *. cbn [executed clock].
      rewrite H1, H2, H3, H4, H5. repeat split. lia.
    - cbn [ret fst snd st0 c_filesRequested c_foldersRequested c_items andb].
      rewrite !app_nil_r. repeat split. lia. }
  destruct A as (A1 & A2 & A3 & A4 & A5).
  set (st1 := fst (m1 w)) in *. set (w1 := snd (m1 w)) in *.
  set (m2 := if subcommandsOn pa then _ else ret st1).
  assert (B :
    fst (m2 w1)
      = mkCollected (c_filesRequested st1) (c_foldersRequested st1)
          (c_items st1
           ++ (if subcommandsOn pa then
                 staticCandidates deps prefix tc Kind_Method (subcommands (completionObj pa))
               else []))
    /\ executions (snd (m2 w1)) = executions w1
    /\ clock w1 <= clock (snd (m2 w1))).
  { subst m2. destruct (subcommandsOn pa).
    - rewrite await_run, addSuggestions_plain. cbn [fst snd]. repeat split.
      cbn [clock]. lia.
    - cbn [ret fst snd]. rewrite app_nil_r. destruct st1; repeat split; lia. }
  destruct B as (B1 & B2 & B3).
  set (st2 := fst (m2 w1)) in *. set (w2 := snd (m2 w1)) in *.
  set (m3 := if optionsOn pa then _ else ret st2).
  assert (C :
    fst (m3 w2)
      = mkCollected (c_filesRequested st2) (c_foldersRequested st2)
          (c_items st2
           ++ (if optionsOn pa then
                 staticCandidates deps prefix tc Kind_Flag (options (completionObj pa))
               else []))
    /\ executions (snd (m3 w2)) = executions w2
    /\ clock w2 <= clock (snd (m3 w2))).
  { subst m3. destruct (optionsOn pa).
    - rewrite await_run, addSuggestions_plain. cbn [fst snd]. repeat split.
      cbn [clock]. lia.
    - cbn [ret fst snd]. rewrite app_nil_r. destruct st2; repeat split; lia. }
  destruct C as (C1 & C2 & C3).
  cbn [ret fst snd]. rewrite C1, C2, B2, A4.
  cbn [c_filesRequested c_foldersRequested c_items].
  rewrite B1. cbn [c_filesRequested c_foldersRequested c_items].
  rewrite A1, A2, A3, <- !app_assoc. repeat split. lia.
Qed.

(** ** [getFigSpecSuggestions] *)

Lemma getFigSpecSuggestions_none spec tc prefix cwd env name token w :
  getCommand deps (commandLine tc) [] (cursorPosition tc) = None \/ cwd = None ->
  getFigSpecSuggestions deps spec tc prefix cwd env name token w = (None, w).
Proof.
  unfold getFigSpecSuggestions. intros [H | H].
  - rewrite H. reflexivity.
  - rewrite H. destruct (getCommand _ _ _ _); reflexivity.
Qed.

Lemma getFigSpecSuggestions_run spec tc prefix cwdUri env name token command w :
  getCommand deps (commandLine tc) [] (cursorPosition tc) = Some command ->
  let pa := parseArguments deps command (mkShellContext env (fsPath cwdUri) "" name) spec in
  let r := collectCompletionItemResult deps command prefix tc (Some cwdUri) env pa []
             (mkWorld (S (clock w)) (executed w)) in
  let w' := mkWorld (S (clock (snd r))) (executed (snd r)) in
  getFigSpecSuggestions deps spec tc prefix (Some cwdUri) env name token w
  = (if isCancellationRequested token (clock w') then None
     else
       Some (mkResult
               (argsOn pa && existsb (declaresTemplate "filepaths") (generatorsOf pa))
               (argsOn pa && existsb (declaresTemplate "folders") (generatorsOf pa))
               (match currentArg pa with Some _ => true | None => false end)
               (snd (fst r))),
     w').
Proof.
  intros Hc pa r w'. unfold getFigSpecSuggestions. rewrite Hc.
  rewrite bind_run, await_run. cbn [ret fst snd clock executed].
  rewrite bind_run, await_run. fold pa. fold r. cbn [fst snd]. fold w'.
  rewrite bind_run. cbn [now fst snd].
  destruct (isCancellationRequested token (clock w')); [reflexivity|].
  pose proof (collect_run command prefix tc (Some cwdUri) env pa []
                (mkWorld (S (clock w)) (executed w))) as H.
  cbn zeta in H. fold r in H. destruct H as (H1 & _).
  destruct (fst r) as [flags its]. cbn [fst snd] in *. rewrite H1. reflexivity.
Qed.

(** The check after collection reads the clock of the final world, which is
    later than the dispatch of any generator of the spec. *)
Lemma getFigSpecSuggestions_clock spec tc prefix cwd env name token w :
  clock w <= clock (snd (getFigSpecSuggestions deps spec tc prefix cwd env name token w)).
Proof.
  destruct (getCommand deps (commandLine tc) [] (cursorPosition tc)) as [command|] eqn:Hc.
  - destruct cwd as [cwdUri|].
    + rewrite (getFigSpecSuggestions_run spec tc prefix cwdUri env name token w Hc).
      cbn [snd clock].
      pose proof (collect_run command prefix tc (Some cwdUri) env
                    (parseArguments deps command (mkShellContext env (fsPath cwdUri) "" name) spec)
                    [] (mkWorld (S (clock w)) (executed w))) as H.
      cbn zeta in H. destruct H as (_ & _ & _ & H). cbn [clock] in H. lia.
    + rewrite getFigSpecSuggestions_none by (right; reflexivity). cbn [snd]. lia.
  - rewrite getFigSpecSuggestions_none by (left; exact Hc). cbn [snd]. lia.
Qed.

Lemma getFigSpecSuggestions_cancelled spec tc prefix cwd env name tk w t :
  monotone tk ->
  tk t = true ->
  t <= clock (snd (getFigSpecSuggestions deps spec tc prefix cwd env name (Some tk) w)) ->
  fst (getFigSpecSuggestions deps spec tc prefix cwd env name (Some tk) w) = None.
Proof.
  intros Hm Ht Hle.
  destruct (getCommand deps (commandLine tc) [] (cursorPosition tc)) as [command|] eqn:Hc.
  - destruct cwd as [cwdUri|].
    + rewrite (getFigSpecSuggestions_run spec tc prefix cwdUri env name (Some tk) w Hc) in *.
      cbn [fst snd clock isCancellationRequested] in *.
      rewrite (Hm _ _ Hle Ht). reflexivity.
    + rewrite getFigSpecSuggestions_none by (right; reflexivity). reflexivity.
  - rewrite getFigSpecSuggestions_none by (left; exact Hc). reflexivity.
Qed.

(** The value computed for a spec does not depend on the world when the
    token is not touched. *)
Lemma getFigSpecSuggestions_stable spec tc prefix cwd env name token w1 w2 :
  stable token ->
  fst (getFigSpecSuggestions deps spec tc prefix cwd env name token w1)
  = fst (getFigSpecSuggestions deps spec tc prefix cwd env name token w2).
Proof.
  intros Hs.
  destruct (getCommand deps (commandLine tc) [] (cursorPosition tc)) as [command|] eqn:Hc.
  - destruct cwd as [cwdUri|].
    + rewrite (getFigSpecSuggestions_run spec tc prefix cwdUri env name token w1 Hc).
      rewrite (getFigSpecSuggestions_run spec tc prefix cwdUri env name token w2 Hc).
      cbn [fst].
      set (pa := parseArguments deps command (mkShellContext env (fsPath cwdUri) "" name) spec).
      pose proof (collect_run command prefix tc (Some cwdUri) env pa []
                    (mkWorld (S (clock w1)) (executed w1))) as H1.
      pose proof (collect_run command prefix tc (Some cwdUri) env pa []
                    (mkWorld (S (clock w2)) (executed w2))) as H2.
      cbn zeta in H1, H2. destruct H1 as (_ & I1 & _). destruct H2 as (_ & I2 & _).
      rewrite I1, I2.
      assert (E : forall t t', isCancellationRequested token t
                               = isCancellationRequested token t').
      { intros t t'. destruct token as [tk|]; [apply (Hs tk eq_refl)|reflexivity]. }
      rewrite (E _ (clock w2)). symmetry. rewrite (E _ (clock w2)). reflexivity.
    + rewrite !getFigSpecSuggestions_none by (right; reflexivity). reflexivity.
  - rewrite !getFigSpecSuggestions_none by (left; exact Hc). reflexivity.
Qed.

(** ** [getFigSuggestions] *)

Section Request.

Variable tc : TerminalContext.
Variable availableCommands : list ICompletionResource.
Variable prefix : string.
Variable cwd : option Uri.
Variable env : list (string * string).
Variable name : string.
Variable precedingText : string.

Local Abbreviation step tokenType token :=
  (labelStep deps tc availableCommands prefix tokenType cwd env name precedingText token).
Local Abbreviation specLoop tokenType token :=
  (specStep deps tc availableCommands prefix tokenType cwd env name precedingText token).
Local Abbreviation suggest tokenType token :=
  (getFigSuggestions deps tc availableCommands prefix tokenType cwd env name precedingText token).
Local Abbreviation contributions tokenType token :=
  (perLabelResults deps tc availableCommands prefix tokenType cwd env name precedingText token).

Lemma mergeResults_empty_r (a : Result) : mergeResults a emptyResult = a.
Proof.
  destruct a. unfold mergeResults, emptyResult. simpl.
  rewrite !orb_false_r, app_nil_r. reflexivity.
Qed.

Lemma mergeSpecResult_merge (result : Result) r :
  mergeSpecResult result r = mergeResults result (mergeSpecResult emptyResult r).
Proof.
  destruct r as [x|]; unfold mergeSpecResult, mergeResults, emptyResult; simpl.
  - reflexivity.
  - rewrite !orb_false_r, app_nil_r. reflexivity.
Qed.

(** The loop body only ever appends to the accumulated result. *)
Lemma labelStep_merge tokenType token spec (result : Result) specLabel w :
  step tokenType token spec result specLabel w
  = (mergeResults result (fst (step tokenType token spec emptyResult specLabel w)),
     snd (step tokenType token spec emptyResult specLabel w)).
Proof.
  unfold labelStep. rewrite !bind_run. cbn [now fst snd].
  destruct (findAvailableCommand deps availableCommands specLabel) as [ac|].
  2:{ cbn [ret fst snd]. rewrite mergeResults_empty_r. reflexivity. }
  destruct (isCancellationRequested token (clock w)).
  { cbn [ret fst snd]. rewrite mergeResults_empty_r. reflexivity. }
  destruct (TokenType_eqb tokenType TokenType_Command).
  { destruct (negb _); cbn [ret fst snd].
    - unfold mergeResults, emptyResult. cbn [filesRequested foldersRequested hasCurrentArg
        items app]. rewrite !orb_false_r. reflexivity.
    - rewrite mergeResults_empty_r. reflexivity. }
  destruct (negb (isFirstWord deps availableCommands precedingText specLabel)).
  { cbn [ret fst snd]. rewrite mergeResults_empty_r. reflexivity. }
  rewrite !bind_run. cbn [ret fst snd].
  rewrite mergeSpecResult_merge. reflexivity.
Qed.

Lemma labelLoop_merge tokenType token spec labels (result : Result) w :
  forOf (step tokenType token spec) labels result w
  = (fold_left (@mergeResults _)
       (fst (contributions tokenType token (map (pair spec) labels) w)) result,
     snd (contributions tokenType token (map (pair spec) labels) w)).
Proof.
  revert result w. induction labels as [|l labels IH]; intros result w.
  - reflexivity.
  - cbn [forOf map perLabelResults]. rewrite !bind_run.
    rewrite labelStep_merge. cbn [fst snd]. rewrite IH.
    cbn [ret fst snd fold_left]. reflexivity.
Qed.

Lemma contributions_app tokenType token p1 p2 w :
  contributions tokenType token (p1 ++ p2) w
  = (fst (contributions tokenType token p1 w)
     ++ fst (contributions tokenType token p2 (snd (contributions tokenType token p1 w))),
     snd (contributions tokenType token p2 (snd (contributions tokenType token p1 w)))).
Proof.
  revert w. induction p1 as [|[spec l] p1 IH]; intros w.
  - cbn [app perLabelResults ret fst snd].
    destruct (contributions tokenType token p2 w); reflexivity.
  - cbn [app perLabelResults]. rewrite !bind_run. rewrite IH.
    cbn [ret fst snd]. reflexivity.
Qed.

Lemma specLoop_merge tokenType token specs (result : Result) w :
  forOf (specLoop tokenType token) specs result w
  = (fold_left (@mergeResults _)
       (fst (contributions tokenType token (specLabelPairs specs) w)) result,
     snd (contributions tokenType token (specLabelPairs specs) w)).
Proof.
  revert result w. induction specs as [|spec specs IH]; intros result w.
  - reflexivity.
  - cbn [forOf]. rewrite bind_run. unfold specLabelPairs. cbn [flat_map].
    fold (specLabelPairs specs). rewrite contributions_app. cbn [fst snd].
    rewrite fold_left_app.
    assert (E : specLoop tokenType token result spec w
                = forOf (step tokenType token spec)
                    (nullish (getFigSuggestionLabel (SpecArg_node spec)) []) result w).
    { unfold specStep. destruct (getFigSuggestionLabel (SpecArg_node spec)); reflexivity. }
    rewrite E, labelLoop_merge. cbn [fst snd]. rewrite IH. reflexivity.
Qed.

Lemma fold_merge_files (rs : list Result) (a : Result) :
  filesRequested (fold_left (@mergeResults _) rs a)
  = filesRequested a || existsb (@filesRequested _) rs.
Proof.
  revert a. induction rs as [|r rs IH]; intros a; cbn [fold_left existsb].
  - rewrite orb_false_r. reflexivity.
  - rewrite IH. cbn [mergeResults filesRequested]. rewrite orb_assoc. reflexivity.
Qed.

Lemma fold_merge_folders (rs : list Result) (a : Result) :
  foldersRequested (fold_left (@mergeResults _) rs a)
  = foldersRequested a || existsb (@foldersRequested _) rs.
Proof.
  revert a. induction rs as [|r rs IH]; intros a; cbn [fold_left existsb].
  - rewrite orb_false_r. reflexivity.
  - rewrite IH. cbn [mergeResults foldersRequested]. rewrite orb_assoc. reflexivity.
Qed.

Lemma fold_merge_arg (rs : list Result) (a : Result) :
  hasCurrentArg (fold_left (@mergeResults _) rs a)
  = hasCurrentArg a || existsb (@hasCurrentArg _) rs.
Proof.
  revert a. induction rs as [|r rs IH]; intros a; cbn [fold_left existsb].
  - rewrite orb_false_r. reflexivity.
  - rewrite IH. cbn [mergeResults hasCurrentArg]. rewrite orb_assoc. reflexivity.
Qed.

Lemma fold_merge_items (rs : list Result) (a : Result) :
  items (fold_left (@mergeResults _) rs a) = items a ++ flat_map (@items _) rs.
Proof.
  revert a. induction rs as [|r rs IH]; intros a; cbn [fold_left flat_map].
  - rewrite app_nil_r. reflexivity.
  - rewrite IH. cbn [mergeResults items]. rewrite app_assoc. reflexivity.
Qed.

(** The value of a loop whose body's value ignores the world ignores the
    world. *)
Lemma forOf_stable {A S} (f : S -> A -> Async S) (l : list A) :
  (forall acc x w1 w2, fst (f acc x w1) = fst (f acc x w2)) ->
  forall acc w1 w2, fst (forOf f l acc w1) = fst (forOf f l acc w2).
Proof.
  intros H. induction l as [|x l IH]; intros acc w1 w2; cbn [forOf].
  - reflexivity.
  - rewrite !bind_run. rewrite (H acc x w1 w2). apply IH.
Qed.

Lemma labelStep_stable tokenType token spec (result : Result) specLabel w1 w2 :
  stable token ->
  fst (step tokenType token spec result specLabel w1)
  = fst (step tokenType token spec result specLabel w2).
Proof.
  intros Hs. unfold labelStep. rewrite !bind_run. cbn [now fst snd].
  destruct (findAvailableCommand deps availableCommands specLabel) as [ac|]; [|reflexivity].
  assert (E : isCancellationRequested token (clock w1)
              = isCancellationRequested token (clock w2)).
  { destruct token as [tk|]; [apply (Hs tk eq_refl)|reflexivity]. }
  rewrite E. destruct (isCancellationRequested token (clock w2)); [reflexivity|].
  destruct (TokenType_eqb tokenType TokenType_Command).
  { destruct (negb _); reflexivity. }
  destruct (negb (isFirstWord deps availableCommands precedingText specLabel)); [reflexivity|].
  rewrite !bind_run, !await_run. cbn [ret fst snd].
  rewrite (getFigSpecSuggestions_stable spec tc prefix cwd env name w1 w2 Hs).
  reflexivity.
Qed.

Lemma getFigSuggestions_stable tokenType token specs w1 w2 :
  stable token ->
  fst (suggest tokenType token specs w1) = fst (suggest tokenType token specs w2).
Proof.
  intros Hs. unfold getFigSuggestions. apply forOf_stable.
  intros acc spec v1 v2. unfold specStep.
  destruct (getFigSuggestionLabel (SpecArg_node spec)) as [labels|]; [|reflexivity].
  apply forOf_stable. intros acc' specLabel u1 u2. apply labelStep_stable. exact Hs.
Qed.

(** A request that starts cancelled skips every spec label. *)
Lemma labelStep_cancelled tokenType tk spec (result : Result) specLabel w :
  tk (clock w) = true ->
  step tokenType (Some tk) spec result specLabel w = (result, w).
Proof.
  intros H. unfold labelStep. rewrite bind_run. cbn [now fst snd isCancellationRequested].
  rewrite H. destruct (findAvailableCommand deps availableCommands specLabel); reflexivity.
Qed.

Lemma getFigSuggestions_cancelled tokenType tk specs w :
  tk (clock w) = true ->
  suggest tokenType (Some tk) specs w = (emptyResult, w).
Proof.
  intros H. unfold getFigSuggestions. apply forOf_skip. intros spec _.
  unfold specStep. destruct (getFigSuggestionLabel (SpecArg_node spec)); [|reflexivity].
  apply forOf_skip. intros specLabel _. apply labelStep_cancelled. exact H.
Qed.

End Request.

(** ** Structural equality and the pass *)

Lemma list_eqb_eq {A} (eqb : A -> A -> bool) :
  (forall x y, eqb x y = true <-> x = y) ->
  forall a b, list_eqb eqb a b = true <-> a = b.
Proof.
  intros H. induction a as [|x a IH]; intros [|y b]; simpl; split; intros E;
    try reflexivity; try discriminate.
  - apply andb_true_iff in E. destruct E as [E1 E2].
    apply H in E1. apply IH in E2. subst. reflexivity.
  - injection E as -> ->. apply andb_true_iff. split; [apply H | apply IH]; reflexivity.
Qed.

Lemma option_eqb_eq {A} (eqb : A -> A -> bool) :
  (forall x y, eqb x y = true <-> x = y) ->
  forall a b, option_eqb eqb a b = true <-> a = b.
Proof.
  intros H [x|] [y|]; simpl; split; intros E; try reflexivity; try discriminate.
  - apply H in E. subst. reflexivity.
  - injection E as ->. apply H. reflexivity.
Qed.

Lemma Template_eqb_eq a b : Template_eqb a b = true <-> a = b.
Proof.
  destruct a as [x|x], b as [y|y]; simpl; split; intros E; try discriminate.
  - apply String.eqb_eq in E. subst. reflexivity.
  - injection E as ->. apply String.eqb_refl.
  - apply (list_eqb_eq String.eqb String.eqb_eq) in E. subst. reflexivity.
  - injection E as ->. apply (list_eqb_eq String.eqb String.eqb_eq). reflexivity.
Qed.

Lemma Generator_eqb_eq a b : Generator_eqb a b = true <-> a = b.
Proof.
  unfold Generator_eqb. rewrite andb_true_iff.
  rewrite (option_eqb_eq Template_eqb Template_eqb_eq).
  rewrite (option_eqb_eq String.eqb String.eqb_eq).
  destruct a, b; simpl. split.
  - intros [-> ->]. reflexivity.
  - intros E. injection E as -> ->. split; reflexivity.
Qed.

Lemma existsb_Generator_eqb g l : existsb (Generator_eqb g) l = true <-> In g l.
Proof.
  rewrite existsb_exists. split.
  - intros (x & Hx & E). apply Generator_eqb_eq in E. subst. exact Hx.
  - intros H. exists g. split; [exact H | apply Generator_eqb_eq; reflexivity].
Qed.

(** One pass executes a generator definition at most once, and never one
    that was triggered before. *)
Lemma pass_executes_once gens triggered :
  NoDup (passExecuted triggered gens)
  /\ forall g, In g (passExecuted triggered gens) -> ~ In g triggered.
Proof.
  revert triggered. induction gens as [|g rest IH]; intros triggered; simpl.
  - split; [constructor | intros g []].
  - destruct (existsb (Generator_eqb g) triggered) eqn:E; [apply IH|].
    assert (Hg : ~ In g triggered).
    { intros Hin. apply existsb_Generator_eqb in Hin. congruence. }
    destruct (IH (g :: triggered)) as [N F].
    destruct (declaresTemplate "filepaths" g || declaresTemplate "folders" g).
    + split; [exact N|]. intros x Hx Hin. apply (F x Hx). right; exact Hin.
    + split.
      * constructor; [|exact N]. intros Hin. apply (F g Hin). left; reflexivity.
      * intros x [<- | Hx]; [exact Hg|]. intros Hin. apply (F x Hx). right; exact Hin.
Qed.

(** A generator that declares a filesystem template is never executed. *)
Lemma pass_skips_templates gens triggered g :
  In g (passExecuted triggered gens) ->
  declaresTemplate "filepaths" g || declaresTemplate "folders" g = false.
Proof.
  revert triggered. induction gens as [|x rest IH]; intros triggered; simpl.
  - intros [].
  - destruct (existsb (Generator_eqb x) triggered); [apply IH|].
    destruct (declaresTemplate "filepaths" x || declaresTemplate "folders" x) eqn:E;
      [apply IH|].
    intros [<- | H]; [exact E | exact (IH _ H)].
Qed.

(** The batch of a generator that declares a filesystem template carries no
    produced item. *)
Lemma pass_template_batches ctx gens triggered b :
  In (Some b) (passBatches deps ctx triggered gens) ->
  declaresTemplate "filepaths" (gs_generator b)
  || declaresTemplate "folders" (gs_generator b) = true ->
  gs_request b = None.
Proof.
  revert triggered. induction gens as [|x rest IH]; intros triggered; simpl.
  - intros [].
  - destruct (existsb (Generator_eqb x) triggered).
    + intros [H | H]; [discriminate | exact (IH _ H)].
    + destruct (declaresTemplate "filepaths" x || declaresTemplate "folders" x) eqn:E.
      * intros [H | H]; [injection H as <-; reflexivity | exact (IH _ H)].
      * intros [H | H]; [|exact (IH _ H)].
        injection H as <-. cbn [gs_generator]. congruence.
Qed.

(** The executions of a request: one whole pass per attached generator. *)
Lemma request_executions command prefix tc cwd env pa items0 w :
  executions (snd (collectCompletionItemResult deps command prefix tc cwd env pa items0 w))
  = executions w
    ++ (if argsOn pa then
          flat_map (fun _ => passExecuted [] (generatorsOf pa)) (generatorsOf pa)
        else []).
Proof.
  pose proof (collect_run command prefix tc cwd env pa items0 w) as H.
  cbn zeta in H. destruct H as (_ & _ & H & _). exact H.
Qed.

(** ** The claims about [collectCompletionItemResult] *)

(** C2 (as amended): when the Args flag of the parse result is set, every
    generator on the current argument that declares template "filepaths"
    (respectively "folders") makes the result carry filesRequested = true
    (respectively foldersRequested = true); such a generator is not executed
    during the request and the batch triggered for it carries no produced
    item, so it contributes no candidate itself. *)
Theorem C2_template_generators_set_flags
    command prefix tc cwd env pa items0 w g :
  flagSet (suggestionFlags pa) (SuggestionFlag_Args deps) = true ->
  In g (generatorsOf pa) ->
  let r := collectCompletionItemResult deps command prefix tc cwd env pa items0 w in
  (declaresTemplate "filepaths" g = true ->
   option_map rf_filesRequested (fst (fst r)) = Some true)
  /\ (declaresTemplate "folders" g = true ->
      option_map rf_foldersRequested (fst (fst r)) = Some true)
  /\ (declaresTemplate "filepaths" g || declaresTemplate "folders" g = true ->
      (In g (executions (snd r)) -> In g (executions w))
      /\ forall b,
           In (Some b) (passBatches deps (initialFigState tc cwd env) [] (generatorsOf pa)) ->
           gs_generator b = g -> gs_request b = None).
Proof.
  intros Hargs Hin r.
  pose proof (collect_run command prefix tc cwd env pa items0 w) as H.
  cbn zeta in H. fold r in H. destruct H as (Hf & _ & Hx & _).
  rewrite Hargs in Hf, Hx. cbn [andb] in Hf.
  repeat split.
  - intros Hd. rewrite Hf. cbn [option_map rf_filesRequested].
    f_equal. apply existsb_exists. exists g. split; assumption.
  - intros Hd. rewrite Hf. cbn [option_map rf_foldersRequested].
    f_equal. apply existsb_exists. exists g. split; assumption.
  - rewrite Hx. intros Hex. apply in_app_or in Hex. destruct Hex as [Hex | Hex];
      [exact Hex|].
    apply in_flat_map in Hex. destruct Hex as (_ & _ & Hex).
    apply pass_skips_templates in Hex. congruence.
  - intros b Hb <-. exact (pass_template_batches _ _ _ _ Hb H).
Qed.

(** C4: the candidates are aggregated in a fixed order: after the items
    already present, the argument-value suggestions (generator-produced
    candidates and the static entries of the current argument) when the Args
    flag is set, then the subcommand names when the Subcommands flag is set,
    then the option names when the Options flag is set. *)
Theorem C4_aggregation_order command prefix tc cwd env pa items0 w :
  snd (fst (collectCompletionItemResult deps command prefix tc cwd env pa items0 w))
  = items0
    ++ (if flagSet (suggestionFlags pa) (SuggestionFlag_Args deps) then
          generatorCandidates deps prefix tc cwd env pa
          ++ staticCandidates deps prefix tc Kind_Argument (currentSuggestions pa)
        else [])
    ++ (if flagSet (suggestionFlags pa) (SuggestionFlag_Subcommands deps) then
          staticCandidates deps prefix tc Kind_Method (subcommands (completionObj pa))
        else [])
    ++ (if flagSet (suggestionFlags pa) (SuggestionFlag_Options deps) then
          staticCandidates deps prefix tc Kind_Flag (options (completionObj pa))
        else []).
Proof.
  pose proof (collect_run command prefix tc cwd env pa items0 w) as H.
  cbn zeta in H. destruct H as (_ & H & _). exact H.
Qed.

(** C6: an item produced by a generator that lacks a usable name (no name,
    an empty name, or an empty list of names) pushes no candidate, and
    consuming the batch goes on with the remaining items: the batch with the
    item behaves as the batch without it. *)
Theorem C6_nameless_items_discarded prefix tc kind (st : Acc) g before item after w :
  hasUsableName item = false ->
  itemCandidates deps prefix tc kind item = []
  /\ consumeBatch deps prefix tc kind st
       (Some (mkGeneratorState g (Some (before ++ item :: after)))) w
     = consumeBatch deps prefix tc kind st
         (Some (mkGeneratorState g (Some (before ++ after)))) w.
Proof.
  intros Hn.
  assert (E : itemCandidates deps prefix tc kind item = []).
  { unfold itemCandidates, hasUsableName in *. unfold getFigSuggestionLabel.
    destruct item as [s|n]; cbn [nameOf truthyName negb] in *; [reflexivity|].
    destruct (node_name n) as [|s|[|a l]]; cbn [truthyName negb] in *.
    - reflexivity.
    - rewrite Hn. reflexivity.
    - reflexivity.
    - discriminate. }
  split; [exact E|].
  rewrite !consumeBatch_run. unfold batchCandidates. cbn [gs_request nullish].
  rewrite !flat_map_app. cbn [flat_map]. rewrite E. reflexivity.
Qed.

(** An item with a usable name does push candidates: one per name. *)
Lemma named_items_kept prefix tc kind item :
  hasUsableName item = true ->
  exists labels, labels <> []
    /\ itemCandidates deps prefix tc kind item
       = map (fun label => suggestionItem deps prefix tc kind label item) labels.
Proof.
  unfold hasUsableName, itemCandidates, getFigSuggestionLabel.
  destruct item as [s|n]; cbn [nameOf truthyName]; [discriminate|].
  destruct (node_name n) as [|s|[|a l]]; cbn [truthyName negb]; try discriminate.
  - intros ->. exists [s]. split; [discriminate | reflexivity].
  - intros _. exists (a :: l). split; [discriminate | reflexivity].
Qed.

(** ** The order of a keyed mapping *)

Lemma insertIndexed_length {A} n (entry : string * A) l :
  length (insertIndexed n entry l) = S (length l).
Proof.
  induction l as [|[m x] l IH]; cbn [insertIndexed length]; [reflexivity|].
  destruct (n <? m)%N; cbn [length]; [reflexivity|]. rewrite IH. reflexivity.
Qed.

Lemma insertIndexed_In {A} n (entry : string * A) l x :
  In x (insertIndexed n entry l) <-> x = (n, entry) \/ In x l.
Proof.
  induction l as [|[m y] l IH]; cbn [insertIndexed].
  - cbn [In]. split; intros [H | H]; auto.
  - destruct (n <? m)%N; cbn [In].
    + split; intros [H | H]; auto.
    + rewrite IH. split.
      * intros [H | [H | H]]; auto.
      * intros [H | [H | H]]; auto.
Qed.

Lemma insertIndexed_ascending {A} n (entry : string * A) l :
  ascending (map fst l) = true -> ascending (map fst (insertIndexed n entry l)) = true.
Proof.
  induction l as [|[m x] l IH]; cbn [insertIndexed map fst]; [reflexivity|].
  intros Hl. destruct (n <? m)%N eqn:E.
  - cbn [map fst ascending]. cbn [map fst ascending] in Hl.
    apply N.ltb_lt in E. apply andb_true_iff. split; [apply N.leb_le; lia | exact Hl].
  - apply N.ltb_ge in E. cbn [map fst].
    assert (Hrest : ascending (map fst l) = true).
    { destruct l as [|[m' x'] l']; [reflexivity|]. cbn [map fst ascending] in Hl.
      apply andb_true_iff in Hl. apply Hl. }
    specialize (IH Hrest).
    destruct l as [|[m' x'] l']; cbn [insertIndexed map fst ascending] in *.
    + apply andb_true_iff. split; [apply N.leb_le; exact E | reflexivity].
    + apply andb_true_iff in Hl. destruct Hl as [Hm _].
      destruct (n <? m')%N; cbn [map fst ascending] in *.
      * apply andb_true_iff. split; [apply N.leb_le; exact E | exact IH].
      * apply andb_true_iff. split; [exact Hm | exact IH].
Qed.

Lemma indexedProperties_ascending {A} (properties : list (string * A)) :
  ascending (map fst (indexedProperties properties)) = true.
Proof.
  induction properties as [|[k v] rest IH]; cbn [indexedProperties]; [reflexivity|].
  destruct (arrayIndex k); [apply insertIndexed_ascending|]; exact IH.
Qed.

Lemma indexedProperties_In {A} (properties : list (string * A)) n entry :
  In (n, entry) (indexedProperties properties)
  <-> In entry properties /\ arrayIndex (fst entry) = Some n.
Proof.
  induction properties as [|[k v] rest IH]; cbn [indexedProperties In].
  - split; [intros [] | intros [[] _]].
  - destruct (arrayIndex k) as [m|] eqn:E.
    + rewrite insertIndexed_In, IH. split.
      * intros [H | [H1 H2]].
        -- injection H as -> ->. split; [left; reflexivity | exact E].
        -- split; [right; exact H1 | exact H2].
      * intros [[H | H] H2].
        -- subst entry. cbn [fst] in H2. left. congruence.
        -- right. split; assumption.
    + rewrite IH. split.
      * intros [H1 H2]. split; [right; exact H1 | exact H2].
      * intros [[H | H] H2].
        -- subst entry. cbn [fst] in H2. congruence.
        -- split; assumption.
Qed.

Lemma Object_entries_length {A} (properties : list (string * A)) :
  length (Object_entries properties) = length properties.
Proof.
  unfold Object_entries, namedProperties. rewrite length_app, length_map.
  induction properties as [|[k v] rest IH]; cbn [indexedProperties filter fst length];
    [reflexivity|].
  destruct (arrayIndex k); cbn [length].
  - rewrite insertIndexed_length. cbn [plus]. rewrite IH. reflexivity.
  - rewrite Nat.add_succ_r, IH. reflexivity.
Qed.

Lemma indexedProperties_none {A} (properties : list (string * A)) :
  (forall entry, In entry properties -> arrayIndex (fst entry) = None) ->
  indexedProperties properties = [].
Proof.
  induction properties as [|[k v] rest IH]; intros H; cbn [indexedProperties];
    [reflexivity|].
  pose proof (H (k, v) (or_introl eq_refl)) as Hk. cbn [fst] in Hk. rewrite Hk.
  apply IH. intros entry Hin. apply H. right. exact Hin.
Qed.

Lemma namedProperties_all {A} (properties : list (string * A)) :
  (forall entry, In entry properties -> arrayIndex (fst entry) = None) ->
  namedProperties properties = properties.
Proof.
  unfold namedProperties.
  induction properties as [|[k v] rest IH]; intros H; cbn [filter fst]; [reflexivity|].
  pose proof (H (k, v) (or_introl eq_refl)) as Hk. cbn [fst] in Hk. rewrite Hk.
  f_equal. apply IH. intros entry Hin. apply H. right. exact Hin.
Qed.

Lemma Object_entries_named {A} (properties : list (string * A)) :
  (forall entry, In entry properties -> arrayIndex (fst entry) = None) ->
  Object_entries properties = properties.
Proof.
  intros H. unfold Object_entries.
  rewrite (indexedProperties_none properties H), (namedProperties_all properties H).
  reflexivity.
Qed.

(** C7 (as amended): an entry of a list source whose name is a list of
    aliases expands to one candidate per alias; a keyed mapping yields one
    candidate per key in the order [Object.entries] gives: the keys that are
    array indices first, in ascending order, then the other keys in the order
    they were declared (so a mapping without such keys is iterated as
    declared); a missing or empty source adds nothing and the call completes
    (for the argument call, nothing besides the generator-produced
    candidates). *)
Theorem C7_static_sources command prefix tc cwd env kind (st : Acc) w :
  (forall alias aliases description,
     let item := SpecArg_node (mkFigNode (NameArray (alias :: aliases)) description) in
     c_items (fst (addSuggestions deps command prefix tc cwd env
                     (Some (SpecArgs_array [item])) kind None st w))
     = c_items st
       ++ map (fun label => suggestionItem deps prefix tc kind label item) (alias :: aliases))
  /\ (forall declared,
        c_items (fst (addSuggestions deps command prefix tc cwd env
                        (Some (recordOfObject declared)) kind None st w))
        = c_items st
          ++ map (fun '(label, item) => suggestionItem deps prefix tc kind label item)
               (map snd (indexedProperties declared) ++ namedProperties declared)
        /\ length (map snd (indexedProperties declared) ++ namedProperties declared)
           = length declared
        /\ ascending (map fst (indexedProperties declared)) = true
        /\ (forall n entry,
              In (n, entry) (indexedProperties declared)
              <-> In entry declared /\ arrayIndex (fst entry) = Some n)
        /\ ((forall entry, In entry declared -> arrayIndex (fst entry) = None) ->
            map snd (indexedProperties declared) ++ namedProperties declared = declared))
  /\ addSuggestions deps command prefix tc cwd env None kind None st w = (st, w)
  /\ addSuggestions deps command prefix tc cwd env (Some (SpecArgs_array [])) kind None st w
     = (st, w)
  /\ addSuggestions deps command prefix tc cwd env (Some (recordOfObject [])) kind None st w
     = (st, w)
  /\ (forall pa,
        c_items (fst (addSuggestions deps command prefix tc cwd env None Kind_Argument
                        (Some pa) st w))
        = c_items st ++ generatorCandidates deps prefix tc cwd env pa).
Proof.
  split; [|split; [|split; [|split; [|split]]]].
  - intros alias aliases description item. rewrite addSuggestions_plain.
    cbn [fst c_items staticCandidates flat_map arrayCandidates getFigSuggestionLabel
           node_name]. subst item. cbn [getFigSuggestionLabel node_name].
    rewrite app_nil_r. reflexivity.
  - intros declared. split; [|split; [|split; [|split]]].
    + rewrite addSuggestions_plain. reflexivity.
    + apply (Object_entries_length declared).
    + apply indexedProperties_ascending.
    + apply indexedProperties_In.
    + apply (Object_entries_named declared).
  - rewrite addSuggestions_plain. cbn [staticCandidates]. rewrite app_nil_r.
    destruct st; reflexivity.
  - rewrite addSuggestions_plain. cbn [staticCandidates flat_map]. rewrite app_nil_r.
    destruct st; reflexivity.
  - rewrite addSuggestions_plain. cbn. rewrite app_nil_r. destruct st; reflexivity.
  - intros pa.
    pose proof (addSuggestions_argument command prefix tc cwd env None pa st w) as H.
    cbn zeta in H. destruct H as (_ & _ & H & _). rewrite H.
    cbn [staticCandidates]. rewrite app_nil_r. reflexivity.
Qed.

(** ** The claims about [getFigSuggestions] *)


(** ** Requests none of whose calls throws *)

Lemma Rejecting_getFigSpecSuggestions_settles failures spec tc prefix cwd env name token w :
  (forall command shellContext,
     Rejecting.parseArgumentsRejects failures command shellContext spec = false) ->
  Rejecting.getFigSpecSuggestions deps failures spec tc prefix cwd env name token w
  = (Rejecting.Fulfilled (fst (getFigSpecSuggestions deps spec tc prefix cwd env name token w)),
     snd (getFigSpecSuggestions deps spec tc prefix cwd env name token w)).
Proof.
  intros H. unfold Rejecting.getFigSpecSuggestions, getFigSpecSuggestions.
  destruct (getCommand deps (commandLine tc) [] (cursorPosition tc)) as [command|];
    [|reflexivity].
  destruct cwd as [cwdUri|]; [|reflexivity].
  unfold Rejecting.parseArgumentsPromise. rewrite H.
  unfold Rejecting.bindS, Rejecting.lift, await, bind, ret, tick, now.
  cbn [fst snd clock executed].
  destruct (collectCompletionItemResult deps command prefix tc (Some cwdUri) env _ [] _)
    as [[flags collected] w1].
  cbn [fst snd clock executed].
  destruct (isCancellationRequested token (S (clock w1))); reflexivity.
Qed.

Lemma Rejecting_findAvailableCommand_settles failures availableCommands specLabel :
  osIsWindows deps = false \/ Rejecting.invalidRegExp failures specLabel = false ->
  Rejecting.findAvailableCommand deps failures availableCommands specLabel
  = Rejecting.Fulfilled (findAvailableCommand deps availableCommands specLabel).
Proof.
  unfold Rejecting.findAvailableCommand, findAvailableCommand.
  intros [H | H]; [rewrite H; reflexivity|].
  destruct (osIsWindows deps); [|reflexivity].
  destruct availableCommands; [reflexivity|]. rewrite H. reflexivity.
Qed.

Lemma Rejecting_labelStep_settles
    failures tc availableCommands prefix tokenType cwd env name precedingText token
    spec (result : Result) specLabel w :
  Rejecting.settles deps failures spec specLabel ->
  Rejecting.labelStep deps failures tc availableCommands prefix tokenType cwd env name
    precedingText token spec result specLabel w
  = (Rejecting.Fulfilled
       (fst (labelStep deps tc availableCommands prefix tokenType cwd env name precedingText
               token spec result specLabel w)),
     snd (labelStep deps tc availableCommands prefix tokenType cwd env name precedingText
            token spec result specLabel w)).
Proof.
  intros [Hp Hr]. unfold Rejecting.labelStep, labelStep. rewrite !bind_run.
  cbn [now fst snd]. rewrite (Rejecting_findAvailableCommand_settles _ _ _ Hr).
  destruct (findAvailableCommand deps availableCommands specLabel) as [ac|]; [|reflexivity].
  destruct (isCancellationRequested token (clock w)); [reflexivity|].
  destruct (TokenType_eqb tokenType TokenType_Command).
  { destruct (negb _); reflexivity. }
  destruct (negb (isFirstWord deps availableCommands precedingText specLabel));
    [reflexivity|].
  unfold Rejecting.bindS. rewrite !bind_run, !await_run.
  rewrite (Rejecting_getFigSpecSuggestions_settles failures spec tc prefix cwd env name
             token w Hp).
  cbn [ret fst snd]. reflexivity.
Qed.

Lemma Rejecting_forOf_settles {A S} (f' : S -> A -> Async (Rejecting.Settled S))
    (f : S -> A -> Async S) (l : list A) :
  (forall x, In x l ->
     forall acc w, f' acc x w = (Rejecting.Fulfilled (fst (f acc x w)), snd (f acc x w))) ->
  forall acc w,
    Rejecting.forOf f' l acc w
    = (Rejecting.Fulfilled (fst (forOf f l acc w)), snd (forOf f l acc w)).
Proof.
  induction l as [|x l IH]; intros H acc w; cbn [Rejecting.forOf forOf].
  - reflexivity.
  - unfold Rejecting.bindS. rewrite !bind_run, (H x (or_introl eq_refl)).
    cbn [fst snd]. apply IH. intros y Hy. apply H. right; exact Hy.
Qed.

Lemma Rejecting_getFigSuggestions_settles
    failures tc availableCommands prefix tokenType cwd env name precedingText token specs w :
  (forall spec specLabel,
     In (spec, specLabel) (specLabelPairs specs) ->
     Rejecting.settles deps failures spec specLabel) ->
  Rejecting.getFigSuggestions deps failures tc availableCommands prefix tokenType cwd env
    name precedingText token specs w
  = (Rejecting.Fulfilled
       (fst (getFigSuggestions deps tc availableCommands prefix tokenType cwd env name
               precedingText token specs w)),
     snd (getFigSuggestions deps tc availableCommands prefix tokenType cwd env name
            precedingText token specs w)).
Proof.
  intros H. unfold Rejecting.getFigSuggestions, getFigSuggestions.
  apply Rejecting_forOf_settles. intros spec Hspec acc w0.
  unfold Rejecting.specStep, specStep.
  destruct (getFigSuggestionLabel (SpecArg_node spec)) as [labels|] eqn:E; [|reflexivity].
  apply Rejecting_forOf_settles. intros specLabel Hl acc' w1.
  apply Rejecting_labelStep_settles. apply H.
  unfold specLabelPairs. apply in_flat_map. exists spec. split; [exact Hspec|].
  rewrite E. cbn [nullish]. apply in_map. exact Hl.
Qed.

(** The loop body run on an empty result gives the result of the spec label
    on its own. *)
Lemma labelStep_contribution
    tc availableCommands prefix tokenType cwd env name precedingText token spec specLabel w :
  labelStep deps tc availableCommands prefix tokenType cwd env name precedingText token
    spec emptyResult specLabel w
  = specLabelResult deps tc availableCommands prefix tokenType cwd env name precedingText
      token spec specLabel w.
Proof.
  unfold labelStep, specLabelResult, resolved. rewrite bind_run. cbn [now fst snd].
  destruct (findAvailableCommand deps availableCommands specLabel) as [ac|]; [|reflexivity].
  destruct (isCancellationRequested token (clock w)); cbn [negb andb]; [reflexivity|].
  destruct (TokenType_eqb tokenType TokenType_Command); cbn [negb andb].
  { destruct (negb _); reflexivity. }
  destruct (isFirstWord deps availableCommands precedingText specLabel); cbn [negb];
    [|reflexivity].
  rewrite bind_run, await_run. cbn [ret fst snd].
  destruct (fst (getFigSpecSuggestions deps spec tc prefix cwd env name token w)) as [x|];
    [destruct x|]; reflexivity.
Qed.

Lemma perLabelResults_explicit
    tc availableCommands prefix tokenType cwd env name precedingText token pairs w :
  perLabelResults deps tc availableCommands prefix tokenType cwd env name precedingText
    token pairs w
  = specLabelResults deps tc availableCommands prefix tokenType cwd env name precedingText
      token pairs w.
Proof.
  revert w. induction pairs as [|[spec specLabel] pairs IH]; intros w;
    cbn [perLabelResults specLabelResults]; [reflexivity|].
  rewrite !bind_run, labelStep_contribution, IH. reflexivity.
Qed.

(** The request as the merge of the results of its spec labels. *)
Lemma getFigSuggestions_explicit
    tc availableCommands prefix tokenType cwd env name precedingText token specs w :
  let rs := specLabelResults deps tc availableCommands prefix tokenType cwd env name
              precedingText token (specLabelPairs specs) w in
  getFigSuggestions deps tc availableCommands prefix tokenType cwd env name precedingText
    token specs w
  = (mkResult (existsb (@filesRequested _) (fst rs)) (existsb (@foldersRequested _) (fst rs))
       (existsb (@hasCurrentArg _) (fst rs)) (flat_map (@items _) (fst rs)),
     snd rs).
Proof.
  cbn zeta. unfold getFigSuggestions. rewrite specLoop_merge, perLabelResults_explicit.
  f_equal.
  set (rs := fst (specLabelResults _ _ _ _ _ _ _ _ _ _ _ _)).
  pose proof (fold_merge_files rs emptyResult) as H1.
  pose proof (fold_merge_folders rs emptyResult) as H2.
  pose proof (fold_merge_arg rs emptyResult) as H3.
  pose proof (fold_merge_items rs emptyResult) as H4.
  destruct (fold_left (@mergeResults _) rs emptyResult) as [f fo h its].
  cbn [filesRequested foldersRequested hasCurrentArg items emptyResult orb app] in *.
  subst. reflexivity.
Qed.


(** C8: with identical inputs and nothing outside touched (the token, when
    there is one, keeps its state), a second call made after the first one
    returns the same result: the same items in the same order and the same
    flags. More generally the result does not depend on the world the call
    starts in. *)
Theorem C8_idempotent
    tc availableCommands prefix tokenType cwd env name precedingText token specs :
  stable token ->
  (forall w,
     let first := getFigSuggestions deps tc availableCommands prefix tokenType cwd env name
                    precedingText token specs w in
     fst (getFigSuggestions deps tc availableCommands prefix tokenType cwd env name
            precedingText token specs (snd first))
     = fst first)
  /\ (forall w1 w2,
        fst (getFigSuggestions deps tc availableCommands prefix tokenType cwd env name
               precedingText token specs w1)
        = fst (getFigSuggestions deps tc availableCommands prefix tokenType cwd env name
                 precedingText token specs w2)).
Proof.
  intros Hs. split.
  - intros w first. apply getFigSuggestions_stable. exact Hs.
  - intros w1 w2. apply getFigSuggestions_stable. exact Hs.
Qed.

Lemma isFirstWord_spec availableCommands precedingText specLabel :
  isFirstWord deps availableCommands precedingText specLabel = true
  <-> exists e,
        In e availableCommands
        /\ specLabel = shownLabel deps (nullish (definitionCommand e) (label e))
        /\ startsWith precedingText (shownLabel deps (label e) ++ " ") = true.
Proof.
  unfold isFirstWord, commandAndAliases, shownLabel.
  destruct (osIsWindows deps); rewrite existsb_exists; split.
  - intros (e & He & Hs). apply filter_In in He. destruct He as [Hin Heq].
    apply String.eqb_eq in Heq. exists e. repeat split; assumption.
  - intros (e & Hin & Heq & Hs). exists e. split; [|exact Hs].
    apply filter_In. split; [exact Hin | apply String.eqb_eq; exact Heq].
  - intros (e & He & Hs). apply filter_In in He. destruct He as [Hin Heq].
    apply String.eqb_eq in Heq. exists e. repeat split; assumption.
  - intros (e & Hin & Heq & Hs). exists e. split; [|exact Hs].
    apply filter_In. split; [exact Hin | apply String.eqb_eq; exact Heq].
Qed.

(** C9 (as amended): for a token type other than Command, a spec label
    contributes to the result only when the preceding text starts with the
    label of an available command that is the spec label's command or one of
    its aliases, followed by a space; otherwise the result is left as it
    was (no item, no flag) and nothing is parsed or executed. *)
Theorem C9_first_word_guard
    tc availableCommands prefix tokenType cwd env name precedingText token
    spec (result : Result) specLabel w :
  tokenType <> TokenType_Command ->
  ~ (exists e,
       In e availableCommands
       /\ specLabel = shownLabel deps (nullish (definitionCommand e) (label e))
       /\ startsWith precedingText (shownLabel deps (label e) ++ " ") = true) ->
  labelStep deps tc availableCommands prefix tokenType cwd env name precedingText token
    spec result specLabel w
  = (result, w).
Proof.
  intros Ht Hno.
  assert (F : isFirstWord deps availableCommands precedingText specLabel = false).
  { destruct (isFirstWord deps availableCommands precedingText specLabel) eqn:F;
      [|reflexivity].
    exfalso. apply Hno. apply isFirstWord_spec. exact F. }
  unfold labelStep. rewrite bind_run. cbn [now fst snd].
  destruct (findAvailableCommand deps availableCommands specLabel); [|reflexivity].
  destruct (isCancellationRequested token (clock w)); [reflexivity|].
  destruct tokenType; [congruence|]. cbn [TokenType_eqb]. rewrite F. reflexivity.
Qed.

(** C10: when the token type is Command a spec label adds at most one
    candidate, built from the label, the description of the spec and the
    detail of the first matching available command; it adds none when that
    command is an alias; flags and world are left as they were, so nothing is
    parsed and no generator is resolved. *)
Theorem C10_command_token
    tc availableCommands prefix cwd env name precedingText token
    spec (result : Result) specLabel w :
  exists added,
    labelStep deps tc availableCommands prefix TokenType_Command cwd env name precedingText
      token spec result specLabel w
    = (mkResult (filesRequested result) (foldersRequested result) (hasCurrentArg result)
         (items result ++ added), w)
    /\ length added <= 1
    /\ (forall x, In x added ->
          exists availableCommand,
            findAvailableCommand deps availableCommands specLabel = Some availableCommand
            /\ kind availableCommand <> Some Kind_Alias
            /\ x = createCompletionItem deps (cursorPosition tc) prefix
                     (mkResource specLabel None None None)
                     (Some (getFixSuggestionDescription spec))
                     (detail availableCommand) None)
    /\ (forall availableCommand,
          findAvailableCommand deps availableCommands specLabel = Some availableCommand ->
          kind availableCommand = Some Kind_Alias -> added = []).
Proof.
  unfold labelStep. rewrite bind_run. cbn [now fst snd TokenType_eqb].
  assert (Skip : exists added,
            (result, w)
            = (mkResult (filesRequested result) (foldersRequested result)
                 (hasCurrentArg result) (items result ++ added), w)
            /\ length added <= 1
            /\ (forall x, In x added ->
                  exists availableCommand,
                    findAvailableCommand deps availableCommands specLabel
                    = Some availableCommand
                    /\ kind availableCommand <> Some Kind_Alias
                    /\ x = createCompletionItem deps (cursorPosition tc) prefix
                             (mkResource specLabel None None None)
                             (Some (getFixSuggestionDescription spec))
                             (detail availableCommand) None)
            /\ added = []).
  { exists []. rewrite app_nil_r. destruct result. cbn.
    split; [reflexivity|]. split; [lia|]. split; [intros x []|reflexivity]. }
  destruct Skip as (added0 & S1 & S2 & S3 & S4).
  destruct (findAvailableCommand deps availableCommands specLabel) as [ac|] eqn:Hf.
  2:{ exists added0. split; [exact S1|]. split; [exact S2|]. split; [exact S3|]. intros; exact S4. }
  destruct (isCancellationRequested token (clock w)).
  { exists added0. split; [exact S1|]. split; [exact S2|]. split; [exact S3|]. intros; exact S4. }
  destruct (negb (option_eqb TerminalCompletionItemKind_eqb (kind ac) (Some Kind_Alias)))
    eqn:Hk.
  - exists [commandItem deps tc prefix spec specLabel ac]. cbn [ret length].
    split; [reflexivity|]. split; [lia|]. split.
    + intros x [<- | []]. exists ac. split; [reflexivity|]. split; [|reflexivity].
      intros E. rewrite E in Hk. discriminate.
    + intros ac' E1 E2. injection E1 as <-. rewrite E2 in Hk. discriminate.
  - exists added0. split; [exact S1|]. split; [exact S2|]. split; [exact S3|]. intros; exact S4.
Qed.

(** ** Further properties of the program *)

Lemma forOf_app {A S} (f : S -> A -> Async S) (l1 l2 : list A) (acc : S) (w : World) :
  forOf f (l1 ++ l2) acc w = forOf f l2 (fst (forOf f l1 acc w)) (snd (forOf f l1 acc w)).
Proof.
  revert acc w. induction l1 as [|x l1 IH]; intros acc w; cbn [app forOf].
  - reflexivity.
  - rewrite !bind_run. apply IH.
Qed.

(** A property of accumulator and world that every iteration keeps holds
    after the loop. *)
Lemma forOf_inv {A S} (f : S -> A -> Async S) (Inv : S -> World -> Prop) (l : list A) :
  (forall acc x w, Inv acc w -> Inv (fst (f acc x w)) (snd (f acc x w))) ->
  forall acc w, Inv acc w -> Inv (fst (forOf f l acc w)) (snd (forOf f l acc w)).
Proof.
  intros H. induction l as [|x l IH]; intros acc w Hi; cbn [forOf].
  - exact Hi.
  - rewrite bind_run. apply IH. apply H. exact Hi.
Qed.

Lemma Kind_eqb_eq a b : TerminalCompletionItemKind_eqb a b = true <-> a = b.
Proof. destruct a, b; simpl; split; intros H; try reflexivity; discriminate. Qed.


Lemma declaresTemplate_spec name g :
  name <> "" ->
  declaresTemplate name g = true
  <-> exists t, gen_template g = Some t /\ In name (templatesOf t).
Proof.
  intros Hne. unfold declaresTemplate. destruct (gen_template g) as [t|]; cbn [truthyTemplate].
  - split.
    + intros H. apply andb_true_iff in H. destruct H as [_ H].
      apply existsb_exists in H. destruct H as (x & Hx & E).
      apply String.eqb_eq in E. subst x. exists t. split; [reflexivity | exact Hx].
    + intros (t' & E & Hin). injection E as <-. apply andb_true_iff. split.
      * destruct t as [s|l]; [|reflexivity]. cbn [templatesOf] in Hin.
        destruct Hin as [<- | []]. apply negb_true_iff. apply String.eqb_neq. exact Hne.
      * apply existsb_exists. exists name. split; [exact Hin | apply String.eqb_refl].
  - split; [discriminate|]. intros (t & E & _). discriminate.
Qed.

(** X2: the result asks for files exactly when the Args flag is set and
    some generator of the current argument lists "filepaths" in its
    template, given as one name or inside an array; and for folders exactly
    when one lists "folders". No other template name sets a flag. *)
Theorem X2_requested_flags_exactly command prefix tc cwd env pa items0 w :
  let r := collectCompletionItemResult deps command prefix tc cwd env pa items0 w in
  (option_map rf_filesRequested (fst (fst r)) = Some true
   <-> flagSet (suggestionFlags pa) (SuggestionFlag_Args deps) = true
       /\ exists g t, In g (generatorsOf pa) /\ gen_template g = Some t
                      /\ In "filepaths" (templatesOf t))
  /\ (option_map rf_foldersRequested (fst (fst r)) = Some true
      <-> flagSet (suggestionFlags pa) (SuggestionFlag_Args deps) = true
          /\ exists g t, In g (generatorsOf pa) /\ gen_template g = Some t
                         /\ In "folders" (templatesOf t)).
Proof.
  cbn zeta.
  pose proof (collect_run command prefix tc cwd env pa items0 w) as H.
  cbn zeta in H. destruct H as (Hf & _). rewrite Hf.
  cbn [option_map rf_filesRequested rf_foldersRequested].
  assert (Hfiles : "filepaths" <> "") by discriminate.
  assert (Hfolders : "folders" <> "") by discriminate.
  split; split.
  - intros E. injection E as E. apply andb_true_iff in E. destruct E as [Ea Ee].
    split; [exact Ea|]. apply existsb_exists in Ee. destruct Ee as (g & Hin & Hd).
    apply (declaresTemplate_spec g Hfiles) in Hd. destruct Hd as (t & Et & Ht).
    exists g, t. repeat split; assumption.
  - intros (Ea & g & t & Hin & Et & Ht). f_equal. apply andb_true_iff.
    split; [exact Ea|]. apply existsb_exists. exists g. split; [exact Hin|].
    apply (declaresTemplate_spec g Hfiles). exists t. split; assumption.
  - intros E. injection E as E. apply andb_true_iff in E. destruct E as [Ea Ee].
    split; [exact Ea|]. apply existsb_exists in Ee. destruct Ee as (g & Hin & Hd).
    apply (declaresTemplate_spec g Hfolders) in Hd. destruct Hd as (t & Et & Ht).
    exists g, t. repeat split; assumption.
  - intros (Ea & g & t & Hin & Et & Ht). f_equal. apply andb_true_iff.
    split; [exact Ea|]. apply existsb_exists. exists g. split; [exact Hin|].
    apply (declaresTemplate_spec g Hfolders). exists t. split; assumption.
Qed.

Lemma In_arrayCandidates prefix tc kind item x :
  In x (arrayCandidates deps prefix tc kind item) ->
  exists label, x = suggestionItem deps prefix tc kind label item.
Proof.
  unfold arrayCandidates. destruct (getFigSuggestionLabel item) as [labels|]; [|intros []].
  intros H. apply in_map_iff in H. destruct H as (label & <- & _). exists label. reflexivity.
Qed.

Lemma In_staticCandidates prefix tc kind specArgs x :
  In x (staticCandidates deps prefix tc kind specArgs) ->
  exists label item, x = suggestionItem deps prefix tc kind label item.
Proof.
  destruct specArgs as [[l|entries]|]; cbn [staticCandidates].
  - intros H. apply in_flat_map in H. destruct H as (item & _ & H).
    apply In_arrayCandidates in H. destruct H as (label & ->). exists label, item. reflexivity.
  - intros H. apply in_map_iff in H. destruct H as ([label item] & <- & _).
    exists label, item. reflexivity.
  - intros [].
Qed.

Lemma In_generatorCandidates prefix tc cwd env pa x :
  In x (generatorCandidates deps prefix tc cwd env pa) ->
  exists label item, x = suggestionItem deps prefix tc Kind_Argument label item.
Proof.
  unfold generatorCandidates. intros H.
  apply in_flat_map in H. destruct H as (_ & _ & H).
  apply in_flat_map in H. destruct H as (b & _ & H).
  unfold batchCandidates in H. apply in_flat_map in H. destruct H as (item & _ & H).
  unfold itemCandidates in H. destruct (negb (truthyName (nameOf item))); [destruct H|].
  fold (arrayCandidates deps prefix tc Kind_Argument item) in H.
  apply In_arrayCandidates in H. destruct H as (label & ->). exists label, item. reflexivity.
Qed.

(** X3: every candidate the collection adds is created at the cursor
    position and with the prefix of the request, without a detail, and with
    the kind of its category: Argument only under the Args flag, Method only
    under the Subcommands flag, Flag only under the Options flag. *)
Theorem X3_candidates_carry_their_category command prefix tc cwd env pa items0 w x :
  In x (snd (fst (collectCompletionItemResult deps command prefix tc cwd env pa items0 w))) ->
  In x items0
  \/ exists label documentation kind,
       x = createCompletionItem deps (cursorPosition tc) prefix
             (mkResource label None None None) None documentation (Some kind)
       /\ ((kind = Kind_Argument
            /\ flagSet (suggestionFlags pa) (SuggestionFlag_Args deps) = true)
           \/ (kind = Kind_Method
               /\ flagSet (suggestionFlags pa) (SuggestionFlag_Subcommands deps) = true)
           \/ (kind = Kind_Flag
               /\ flagSet (suggestionFlags pa) (SuggestionFlag_Options deps) = true)).
Proof.
  pose proof (collect_run command prefix tc cwd env pa items0 w) as H.
  cbn zeta in H. destruct H as (_ & H & _). rewrite H. clear H. intros Hin.
  apply in_app_or in Hin. destruct Hin as [Hin | Hin]; [left; exact Hin | right].
  apply in_app_or in Hin. destruct Hin as [Hin | Hin].
  { destruct (argsOn pa) eqn:E; [|destruct Hin].
    apply in_app_or in Hin. destruct Hin as [Hin | Hin].
    - apply In_generatorCandidates in Hin. destruct Hin as (label & item & ->).
      exists label, (descriptionOf item), Kind_Argument. split; [reflexivity|]. left. auto.
    - apply In_staticCandidates in Hin. destruct Hin as (label & item & ->).
      exists label, (descriptionOf item), Kind_Argument. split; [reflexivity|]. left. auto. }
  apply in_app_or in Hin. destruct Hin as [Hin | Hin].
  - destruct (subcommandsOn pa) eqn:E; [|destruct Hin].
    apply In_staticCandidates in Hin. destruct Hin as (label & item & ->).
    exists label, (descriptionOf item), Kind_Method. split; [reflexivity|]. right; left. auto.
  - destruct (optionsOn pa) eqn:E; [|destruct Hin].
    apply In_staticCandidates in Hin. destruct Hin as (label & item & ->).
    exists label, (descriptionOf item), Kind_Flag. split; [reflexivity|]. right; right. auto.
Qed.

(** X4: the token is not handed to parsing or collection: the awaits taken
    and the generators executed for a spec are the same whatever the token
    says, so a cancelled spec has dispatched every generator an uncancelled
    one dispatches; only the returned value differs. *)
Theorem X4_cancellation_does_not_stop_generators
    spec tc prefix cwd env name token1 token2 w :
  snd (getFigSpecSuggestions deps spec tc prefix cwd env name token1 w)
  = snd (getFigSpecSuggestions deps spec tc prefix cwd env name token2 w).
Proof.
  destruct (getCommand deps (commandLine tc) [] (cursorPosition tc)) as [command|] eqn:Hc.
  - destruct cwd as [cwdUri|].
    + rewrite (getFigSpecSuggestions_run spec tc prefix cwdUri env name token1 w Hc).
      rewrite (getFigSpecSuggestions_run spec tc prefix cwdUri env name token2 w Hc).
      reflexivity.
    + rewrite !getFigSpecSuggestions_none by (right; reflexivity). reflexivity.
  - rewrite !getFigSpecSuggestions_none by (left; exact Hc). reflexivity.
Qed.

(** X5: for a token that is not a command, a spec label whose command is
    available is resolved as soon as the preceding text starts with the label
    of the command or of one of its aliases followed by a space, provided
    cancellation is not requested: the flags of what getFigSpecSuggestions
    returns are or-ed into the accumulated flags and its items are appended
    to the accumulated items (nothing is added when it returns undefined),
    one turn after the spec completed. *)
Theorem X5_alias_first_word_resolves
    tc availableCommands prefix tokenType cwd env name precedingText token
    spec (result : Result) specLabel w availableCommand e :
  tokenType <> TokenType_Command ->
  findAvailableCommand deps availableCommands specLabel = Some availableCommand ->
  isCancellationRequested token (clock w) = false ->
  In e availableCommands ->
  specLabel = shownLabel deps (nullish (definitionCommand e) (label e)) ->
  startsWith precedingText (shownLabel deps (label e) ++ " ") = true ->
  let r := getFigSpecSuggestions deps spec tc prefix cwd env name token w in
  labelStep deps tc availableCommands prefix tokenType cwd env name precedingText token
    spec result specLabel w
  = (mkResult
       (filesRequested result
        || match fst r with Some specResult => filesRequested specResult | None => false end)
       (foldersRequested result
        || match fst r with Some specResult => foldersRequested specResult | None => false end)
       (hasCurrentArg result
        || match fst r with Some specResult => hasCurrentArg specResult | None => false end)
       (items result
        ++ match fst r with Some specResult => items specResult | None => [] end),
     mkWorld (S (clock (snd r))) (executed (snd r))).
Proof.
  intros Ht Hf Hc Hin He Hs. cbn zeta.
  assert (F : isFirstWord deps availableCommands precedingText specLabel = true).
  { apply isFirstWord_spec. exists e. repeat split; assumption. }
  unfold labelStep. rewrite bind_run. cbn [now fst snd]. rewrite Hf, Hc.
  destruct tokenType; [congruence|]. cbn [TokenType_eqb]. rewrite F. cbn [negb].
  rewrite bind_run, await_run. cbn [ret fst snd]. unfold mergeSpecResult.
  destruct (fst (getFigSpecSuggestions deps spec tc prefix cwd env name token w));
    [reflexivity|].
  rewrite !orb_false_r, app_nil_r. reflexivity.
Qed.

(** X6: off Windows a spec label is matched against the available commands
    by prefix: when the token is a command, cancellation is not requested,
    some available command has a label that starts with the spec label and
    none of those is an alias, exactly one candidate is added for the label,
    carrying the detail of such a command. *)
Theorem X6_command_matched_by_prefix
    tc availableCommands prefix cwd env name precedingText token
    spec (result : Result) specLabel w c :
  osIsWindows deps = false ->
  isCancellationRequested token (clock w) = false ->
  In c availableCommands ->
  startsWith (label c) specLabel = true ->
  (forall c', In c' availableCommands -> startsWith (label c') specLabel = true ->
              kind c' <> Some Kind_Alias) ->
  exists availableCommand,
    In availableCommand availableCommands
    /\ startsWith (label availableCommand) specLabel = true
    /\ labelStep deps tc availableCommands prefix TokenType_Command cwd env name
         precedingText token spec result specLabel w
       = (mkResult (filesRequested result) (foldersRequested result)
            (hasCurrentArg result)
            (items result
             ++ [createCompletionItem deps (cursorPosition tc) prefix
                   (mkResource specLabel None None None)
                   (Some (getFixSuggestionDescription spec))
                   (detail availableCommand) None]),
          w).
Proof.
  intros Hw Hc Hin Hs Hk.
  destruct (findAvailableCommand deps availableCommands specLabel) as [ac|] eqn:Hf.
  - assert (Hac : In ac availableCommands /\ startsWith (label ac) specLabel = true).
    { unfold findAvailableCommand, find_first in Hf. rewrite Hw in Hf.
      apply find_some in Hf. exact Hf. }
    destruct Hac as [Hac1 Hac2]. exists ac. split; [exact Hac1|]. split; [exact Hac2|].
    unfold labelStep. rewrite bind_run. cbn [now fst snd TokenType_eqb]. rewrite Hf, Hc.
    destruct (option_eqb TerminalCompletionItemKind_eqb (kind ac) (Some Kind_Alias)) eqn:E.
    + exfalso. apply (Hk ac Hac1 Hac2).
      apply (option_eqb_eq TerminalCompletionItemKind_eqb Kind_eqb_eq). exact E.
    + reflexivity.
  - exfalso. unfold findAvailableCommand, find_first in Hf. rewrite Hw in Hf.
    pose proof (find_none _ _ Hf c Hin) as Hn. cbn beta in Hn. congruence.
Qed.

(** X7: turning the environment record into an array keeps every variable
    with its value, in the order of the entries: reading the pairs back from
    the array gives the entries again. *)
Theorem X7_environment_array_round_trip (env : list (string * string)) :
  map (fun v => (key v, value v)) (convertEnvRecordToArray env) = env
  /\ length (convertEnvRecordToArray env) = length env.
Proof.
  unfold convertEnvRecordToArray. split.
  - induction env as [|[k v] env IH]; cbn [map key value]; [reflexivity|].
    rewrite IH. reflexivity.
  - apply length_map.
Qed.

(** X8: the labels of a spec, when there are any, are never an empty list;
    there are none exactly for an object whose name is missing or is an
    empty list of aliases, and a plain string is its own single label. *)
Theorem X8_labels_never_empty (spec : SpecArg) :
  (forall labels, getFigSuggestionLabel spec = Some labels -> labels <> [])
  /\ (getFigSuggestionLabel spec = None
      <-> exists n, spec = SpecArg_node n
                    /\ (node_name n = NameUndefined \/ node_name n = NameArray []))
  /\ (forall s, spec = SpecArg_string s -> getFigSuggestionLabel spec = Some [s]).
Proof.
  split; [|split].
  - intros labels. destruct spec as [s|n]; cbn [getFigSuggestionLabel].
    + intros E. injection E as <-. discriminate.
    + destruct (node_name n) as [|s|[|a l]]; intros E; try discriminate;
        injection E as <-; discriminate.
  - destruct spec as [s|n]; cbn [getFigSuggestionLabel].
    + split; [discriminate|]. intros (n & E & _). discriminate.
    + split.
      * intros E. exists n. split; [reflexivity|].
        destruct (node_name n) as [|s|[|a l]]; try discriminate; auto.
      * intros (n' & E & H). injection E as <-.
        destruct H as [-> | ->]; reflexivity.
  - intros s ->. reflexivity.
Qed.

(** X9: a spec that has no label is skipped: the request over a batch that
    contains it is the request over the batch without it, result and world
    alike. *)
Theorem X9_nameless_specs_skipped
    tc availableCommands prefix tokenType cwd env name precedingText token
    before spec after w :
  getFigSuggestionLabel (SpecArg_node spec) = None ->
  getFigSuggestions deps tc availableCommands prefix tokenType cwd env name precedingText
    token (before ++ spec :: after) w
  = getFigSuggestions deps tc availableCommands prefix tokenType cwd env name precedingText
      token (before ++ after) w.
Proof.
  intros Hn. unfold getFigSuggestions. rewrite !forOf_app. cbn [forOf].
  rewrite bind_run.
  assert (E : forall acc w',
            specStep deps tc availableCommands prefix tokenType cwd env name precedingText
              token acc spec w' = (acc, w')).
  { intros acc w'. unfold specStep. rewrite Hn. reflexivity. }
  rewrite E. reflexivity.
Qed.

(** X10: the items a generator produced are pushed as the same items would
    be from a static list, after the ones whose name is falsy are dropped: an
    entry with an empty name and a plain string are kept in a static list and
    discarded in a batch. *)
Theorem X10_batch_is_filtered_static_list prefix tc kind (st : Acc) g produced w :
  fst (consumeBatch deps prefix tc kind st (Some (mkGeneratorState g (Some produced))) w)
  = pushStatic deps prefix tc kind
      (SpecArgs_array (filter (fun item => truthyName (nameOf item)) produced)) st.
Proof.
  rewrite consumeBatch_run, pushStatic_run. cbn [fst]. f_equal. f_equal.
  unfold batchCandidates. cbn [gs_request nullish staticCandidates].
  induction produced as [|item produced IH]; cbn [flat_map filter]; [reflexivity|].
  rewrite IH. unfold itemCandidates at 1.
  destruct (truthyName (nameOf item)); cbn [negb flat_map app]; reflexivity.
Qed.

(** X11: a parse result none of whose flags is set collects nothing: the
    items handed in come back as they are, no file or folder listing is
    requested, no await is taken and no generator is executed, whatever the
    current argument and the completion object hold. *)
Theorem X11_no_flag_collects_nothing command prefix tc cwd env pa items0 w :
  flagSet (suggestionFlags pa) (SuggestionFlag_Args deps) = false ->
  flagSet (suggestionFlags pa) (SuggestionFlag_Subcommands deps) = false ->
  flagSet (suggestionFlags pa) (SuggestionFlag_Options deps) = false ->
  collectCompletionItemResult deps command prefix tc cwd env pa items0 w
  = ((Some (mkRequestedFlags false false), items0), w).
Proof.
  intros Ha Hs Ho. unfold collectCompletionItemResult. rewrite Ha, Hs, Ho. reflexivity.
Qed.

Lemma labelStep_command_step
    tc availableCommands prefix cwd env name precedingText token
    spec (result : Result) specLabel w :
  exists added,
    labelStep deps tc availableCommands prefix TokenType_Command cwd env name precedingText
      token spec result specLabel w
    = (mkResult (filesRequested result) (foldersRequested result) (hasCurrentArg result)
         (items result ++ added), w)
    /\ length added <= 1.
Proof.
  unfold labelStep. rewrite bind_run. cbn [now fst snd TokenType_eqb].
  assert (Skip : exists added,
            (result, w)
            = (mkResult (filesRequested result) (foldersRequested result)
                 (hasCurrentArg result) (items result ++ added), w)
            /\ length added <= 1).
  { exists []. rewrite app_nil_r. destruct result. cbn. split; [reflexivity | lia]. }
  destruct (findAvailableCommand deps availableCommands specLabel) as [ac|];
    [|exact Skip].
  destruct (isCancellationRequested token (clock w)); [exact Skip|].
  destruct (negb _); [|exact Skip].
  eexists. split; [reflexivity|]. cbn [length]. lia.
Qed.

Lemma labelLoop_command
    tc availableCommands prefix cwd env name precedingText token spec labels :
  forall (result : Result) w,
  exists added,
    forOf (labelStep deps tc availableCommands prefix TokenType_Command cwd env name
             precedingText token spec) labels result w
    = (mkResult (filesRequested result) (foldersRequested result) (hasCurrentArg result)
         (items result ++ added), w)
    /\ length added <= length labels.
Proof.
  induction labels as [|specLabel labels IH]; intros result w; cbn [forOf].
  - exists []. rewrite app_nil_r. destruct result. cbn. split; [reflexivity | lia].
  - rewrite bind_run.
    destruct (labelStep_command_step tc availableCommands prefix cwd env name precedingText
                token spec result specLabel w) as (a1 & E1 & L1).
    rewrite E1. cbn [fst snd].
    destruct (IH (mkResult (filesRequested result) (foldersRequested result)
                    (hasCurrentArg result) (items result ++ a1)) w) as (a2 & E2 & L2).
    rewrite E2. cbn [filesRequested foldersRequested hasCurrentArg items].
    exists (a1 ++ a2). rewrite app_assoc. split; [reflexivity|].
    rewrite length_app. cbn [length]. lia.
Qed.

(** X12: a request whose token is a command never asks for a file or
    folder listing, never reports a current argument, takes no await and
    executes no generator, and returns at most one candidate per spec label
    of the batch. *)
Theorem X12_command_request
    tc availableCommands prefix cwd env name precedingText token specs w :
  let r := getFigSuggestions deps tc availableCommands prefix TokenType_Command cwd env
             name precedingText token specs w in
  filesRequested (fst r) = false
  /\ foldersRequested (fst r) = false
  /\ hasCurrentArg (fst r) = false
  /\ snd r = w
  /\ length (items (fst r)) <= length (specLabelPairs specs).
Proof.
  cbn zeta. unfold getFigSuggestions.
  assert (G : forall (result : Result),
            exists added,
              forOf (specStep deps tc availableCommands prefix TokenType_Command cwd env
                       name precedingText token) specs result w
              = (mkResult (filesRequested result) (foldersRequested result)
                   (hasCurrentArg result) (items result ++ added), w)
              /\ length added <= length (specLabelPairs specs)).
  { induction specs as [|spec specs IH]; intros result; cbn [forOf].
    - exists []. rewrite app_nil_r. destruct result. cbn. split; [reflexivity | lia].
    - rewrite bind_run. unfold specLabelPairs. cbn [flat_map]. fold (specLabelPairs specs).
      rewrite length_app, length_map.
      assert (S0 : specStep deps tc availableCommands prefix TokenType_Command cwd env name
                     precedingText token result spec w
                   = forOf (labelStep deps tc availableCommands prefix TokenType_Command
                              cwd env name precedingText token spec)
                       (nullish (getFigSuggestionLabel (SpecArg_node spec)) []) result w).
      { unfold specStep. destruct (getFigSuggestionLabel (SpecArg_node spec)); reflexivity. }
      rewrite S0.
      destruct (labelLoop_command tc availableCommands prefix cwd env name precedingText
                  token spec (nullish (getFigSuggestionLabel (SpecArg_node spec)) [])
                  result w) as (a1 & E1 & L1).
      rewrite E1. cbn [fst snd].
      destruct (IH (mkResult (filesRequested result) (foldersRequested result)
                      (hasCurrentArg result) (items result ++ a1))) as (a2 & E2 & L2).
      rewrite E2. cbn [filesRequested foldersRequested hasCurrentArg items].
      exists (a1 ++ a2). rewrite app_assoc. split; [reflexivity|].
      rewrite length_app. lia. }
  destruct (G emptyResult) as (added & E & L). rewrite E.
  cbn [fst snd filesRequested foldersRequested hasCurrentArg items emptyResult app].
  repeat split. exact L.
Qed.

(** X13: a spec yields no result in exactly three cases: the command line
    cannot be parsed, the working directory is unknown, or cancellation is
    requested when the collection has completed. *)
Theorem X13_undefined_exactly spec tc prefix cwd env name token w :
  let r := getFigSpecSuggestions deps spec tc prefix cwd env name token w in
  fst r = None
  <-> getCommand deps (commandLine tc) [] (cursorPosition tc) = None
      \/ cwd = None
      \/ isCancellationRequested token (clock (snd r)) = true.
Proof.
  cbn zeta.
  destruct (getCommand deps (commandLine tc) [] (cursorPosition tc)) as [command|] eqn:Hc.
  - destruct cwd as [cwdUri|].
    + rewrite (getFigSpecSuggestions_run spec tc prefix cwdUri env name token w Hc).
      cbn [fst snd clock].
      destruct (isCancellationRequested token _) eqn:E.
      * split; [intros _; right; right; reflexivity | reflexivity].
      * split; [discriminate|]. intros [H | [H | H]]; discriminate.
    + rewrite getFigSpecSuggestions_none by (right; reflexivity).
      split; [intros _; right; left; reflexivity | reflexivity].
  - rewrite getFigSpecSuggestions_none by (left; exact Hc).
    split; [intros _; left; reflexivity | reflexivity].
Qed.


End Properties.

(** * The program on the concrete host *)

Section Runs.

Import Demo.

Local Abbreviation collectOn pa :=
  (collectCompletionItemResult host "git " "git " tc home [] pa [] world0).

Local Abbreviation suggestOn precedingText tokenType token specs :=
  (getFigSuggestions host tc [git; g_alias] precedingText tokenType home [] "zsh"
     precedingText token specs world0).

(** The label function on the shapes a [name] can take. *)
Example label_of_string : getFigSuggestionLabel (SpecArg_string "HEAD") = Some ["HEAD"].
Proof. reflexivity. Qed.

Example label_of_aliases :
  getFigSuggestionLabel (SpecArg_node (mkFigNode (NameArray ["-h"; "--help"]) None))
  = Some ["-h"; "--help"].
Proof. reflexivity. Qed.

Example label_of_no_alias :
  getFigSuggestionLabel (SpecArg_node (mkFigNode (NameArray []) (Some "unnamed"))) = None.
Proof. reflexivity. Qed.

Example label_of_missing_name :
  getFigSuggestionLabel (SpecArg_node (mkFigNode NameUndefined None)) = None.
Proof. reflexivity. Qed.

Example description_defaults : getFixSuggestionDescription specUnknown = "".
Proof. reflexivity. Qed.

Example env_as_array :
  convertEnvRecordToArray [("HOME", "/home/user"); ("SHELL", "zsh")]
  = [mkEnvironmentVariable "HOME" "/home/user"; mkEnvironmentVariable "SHELL" "zsh"].
Proof. reflexivity. Qed.

Example flags_of_porcelain :
  flagSet (suggestionFlags paSubcommands) (SuggestionFlag_Args host) = false
  /\ flagSet (suggestionFlags paSubcommands) (SuggestionFlag_Subcommands host) = true
  /\ flagSet (suggestionFlags paSubcommands) (SuggestionFlag_Options host) = true.
Proof. repeat split. Qed.

(** Both templates at once, and the request leaves the generators alone. *)
Example files_and_folders :
  fst (collectOn paFiles) = (Some (mkRequestedFlags true true), [])
  /\ executed (snd (collectOn paFiles)) = [].
Proof. vm_compute. repeat split. Qed.

Lemma cancelledFrom_monotone t0 : monotone (cancelledFrom t0).
Proof.
  intros t t' Hle H. unfold cancelledFrom in *.
  apply Nat.leb_le in H. apply Nat.leb_le. lia.
Qed.

(** C1: the same generator definition attached twice to the current
    argument is executed twice during one request, once in each iteration of
    the loop over the generators, and its candidates are pushed twice, where
    the claim has it executed exactly once. *)
Theorem C1_identical_generators_execute_twice :
  Generator_eqb gBranches gBranches = true
  /\ generatorsOf paTwice = [gBranches; gBranches]
  /\ passExecuted [] (generatorsOf paTwice) = [gBranches]
  /\ executions (snd (collectOn paTwice)) = [gBranches; gBranches]
  /\ map (fun x => label (it_resource x)) (snd (fst (collectOn paTwice)))
     = ["main"; "dev"; "develop"; "main"; "dev"; "develop"].
Proof. vm_compute. repeat split. Qed.

(** C2, the claim as stated fails: a generator declaring template
    "filepaths" sits on the current argument, the parse result asks for
    option names only, and the result carries filesRequested = false. *)
Lemma C2_no_flag_without_args :
  In gFiles (generatorsOf paFilesOptionsOnly)
  /\ declaresTemplate "filepaths" gFiles = true
  /\ flagSet (suggestionFlags paFilesOptionsOnly) (SuggestionFlag_Args host) = false
  /\ fst (fst (collectOn paFilesOptionsOnly)) = Some (mkRequestedFlags false false).
Proof. vm_compute. repeat split. left; reflexivity. Qed.

(** The file generator of [paFiles] under the Args flag. *)
Lemma C2_template_generators_set_flags_witness :
  flagSet (suggestionFlags paFiles) (SuggestionFlag_Args host) = true
  /\ In gFiles (generatorsOf paFiles)
  /\ declaresTemplate "filepaths" gFiles = true
  /\ option_map rf_filesRequested (fst (fst (collectOn paFiles))) = Some true.
Proof.
  assert (Ha : flagSet (suggestionFlags paFiles) (SuggestionFlag_Args host) = true)
    by reflexivity.
  assert (Hi : In gFiles (generatorsOf paFiles)) by (left; reflexivity).
  assert (Hd : declaresTemplate "filepaths" gFiles = true) by reflexivity.
  refine (conj Ha (conj Hi (conj Hd _))).
  exact (proj1 (@C2_template_generators_set_flags Item string host "git " "git "
                  tc home [] paFiles [] world0 gFiles Ha Hi) Hd).
Defined.



(** A produced item without a name, between two named ones. *)
Lemma C6_nameless_items_discarded_witness :
  let nameless := SpecArg_node (mkFigNode NameUndefined (Some "detached")) in
  hasUsableName nameless = false
  /\ consumeBatch host "git " tc Kind_Argument (mkCollected false false [])
       (Some (mkGeneratorState gBranches (Some ([node "main"] ++ nameless :: [node "dev"]))))
       world0
     = consumeBatch host "git " tc Kind_Argument (mkCollected false false [])
         (Some (mkGeneratorState gBranches (Some ([node "main"] ++ [node "dev"]))))
         world0.
Proof.
  refine (conj eq_refl _).
  exact (proj2 (@C6_nameless_items_discarded Item string host "git " tc Kind_Argument
                  (mkCollected false false []) gBranches [node "main"]
                  (SpecArg_node (mkFigNode NameUndefined (Some "detached")))
                  [node "dev"] world0 eq_refl)).
Defined.

Lemma stable_without_token : stable None.
Proof. intros tk H. discriminate. Qed.

(** The same request made twice in a row, without a token. *)
Lemma C8_idempotent_witness :
  stable None
  /\ fst (getFigSuggestions host tc [git; g_alias] "git " TokenType_Argument home [] "zsh"
            "git " None [specPorcelain; specCheckout]
            (snd (suggestOn "git " TokenType_Argument None [specPorcelain; specCheckout])))
     = fst (suggestOn "git " TokenType_Argument None [specPorcelain; specCheckout]).
Proof.
  refine (conj stable_without_token _).
  exact (proj1 (@C8_idempotent Item string host tc [git; g_alias] "git "
                  TokenType_Argument home [] "zsh" "git " None
                  [specPorcelain; specCheckout] stable_without_token) world0).
Defined.

(** C9, the claim as stated fails: the token is a command, the preceding
    text "gi" does not start with "git " (nor with "g "), and the spec label
    still contributes a candidate. *)
Lemma C9_command_token_contributes :
  existsb (fun e => startsWith "gi" (label e ++ " ")) [git; g_alias] = false
  /\ isFirstWord host [git; g_alias] "gi" "git" = false
  /\ map (fun x => label (it_resource x))
       (items (fst (suggestOn "gi" TokenType_Command None [specPorcelain])))
     = ["git"].
Proof. vm_compute. repeat split. Qed.

Lemma not_first_word :
  ~ (exists e,
       In e [git; g_alias]
       /\ "git" = shownLabel host (nullish (definitionCommand e) (label e))
       /\ startsWith "ls " (shownLabel host (label e) ++ " ") = true).
Proof.
  intros (e & Hin & _ & Hs).
  destruct Hin as [<- | [<- | []]]; vm_compute in Hs; discriminate.
Qed.

(** The spec of git while the command line starts with another command. *)
Lemma C9_first_word_guard_witness :
  TokenType_Argument <> TokenType_Command
  /\ labelStep host tc [git; g_alias] "ls " TokenType_Argument home [] "zsh" "ls " None
       specPorcelain emptyResult "git" world0
     = (emptyResult, world0).
Proof.
  assert (Ht : TokenType_Argument <> TokenType_Command) by discriminate.
  refine (conj Ht _).
  exact (@C9_first_word_guard Item string host tc [git; g_alias] "ls " TokenType_Argument
           home [] "zsh" "ls " None specPorcelain emptyResult "git" world0 Ht
           not_first_word).
Defined.

(** ** Instances of the further properties *)

Import Samples.


(** The subcommand candidate "commit" of the porcelain spec. *)
Lemma X3_candidates_carry_their_category_witness :
  let x := mkItem 4 "git " (mkResource "commit" None None None) None None
             (Some Kind_Method) in
  In x (snd (fst (collectOn paSubcommands)))
  /\ (In x []
      \/ exists label documentation kind,
           x = createCompletionItem host (cursorPosition tc) "git "
                 (mkResource label None None None) None documentation (Some kind)
           /\ ((kind = Kind_Argument
                /\ flagSet (suggestionFlags paSubcommands) (SuggestionFlag_Args host) = true)
               \/ (kind = Kind_Method
                   /\ flagSet (suggestionFlags paSubcommands)
                        (SuggestionFlag_Subcommands host) = true)
               \/ (kind = Kind_Flag
                   /\ flagSet (suggestionFlags paSubcommands)
                        (SuggestionFlag_Options host) = true))).
Proof.
  cbn zeta.
  assert (Hin : In (mkItem 4 "git " (mkResource "commit" None None None) None None
                      (Some Kind_Method))
                  (snd (fst (collectOn paSubcommands))))
    by (vm_compute; left; reflexivity).
  refine (conj Hin _).
  exact (@X3_candidates_carry_their_category Item string host "git " "git " tc home []
           paSubcommands [] world0 _ Hin).
Defined.

Lemma gitk_is_no_alias :
  forall c', In c' [gitk] -> startsWith (label c') "git" = true -> kind c' <> Some Kind_Alias.
Proof. intros c' [<- | []] _. discriminate. Qed.

(** Only gitk is installed, and the git spec is still offered. *)
Lemma X6_command_matched_by_prefix_witness :
  osIsWindows host = false
  /\ startsWith (label gitk) "git" = true
  /\ exists availableCommand,
       In availableCommand [gitk]
       /\ startsWith (label availableCommand) "git" = true
       /\ labelStep host tc [gitk] "gi" TokenType_Command home [] "zsh" "gi" None
            specPorcelain emptyResult "git" world0
          = (mkResult false false false
               ([] ++ [createCompletionItem host (cursorPosition tc) "gi"
                         (mkResource "git" None None None)
                         (Some (getFixSuggestionDescription specPorcelain))
                         (detail availableCommand) None]),
             world0).
Proof.
  refine (conj eq_refl (conj eq_refl _)).
  exact (@X6_command_matched_by_prefix Item string host tc [gitk] "gi" home [] "zsh" "gi"
           None specPorcelain emptyResult "git" world0 gitk eq_refl eq_refl
           (or_introl eq_refl) eq_refl gitk_is_no_alias).
Defined.

(** A spec without a name between two specs of git. *)
Lemma X9_nameless_specs_skipped_witness :
  getFigSuggestionLabel (SpecArg_node specNameless) = None
  /\ suggestOn "git " TokenType_Argument None ([specPorcelain] ++ specNameless :: [specCheckout])
     = suggestOn "git " TokenType_Argument None ([specPorcelain] ++ [specCheckout]).
Proof.
  refine (conj eq_refl _).
  exact (@X9_nameless_specs_skipped Item string host tc [git; g_alias] "git "
           TokenType_Argument home [] "zsh" "git " None [specPorcelain] specNameless
           [specCheckout] world0 eq_refl).
Defined.

(** A parse result whose only flag bit is none of the three. *)
Lemma X11_no_flag_collects_nothing_witness :
  let pa := mkArgumentParserResult (completionObj paSubcommands) (currentArg paBranch) 8 in
  flagSet (suggestionFlags pa) (SuggestionFlag_Args host) = false
  /\ collectOn pa = ((Some (mkRequestedFlags false false), []), world0).
Proof.
  refine (conj eq_refl _).
  exact (@X11_no_flag_collects_nothing Item string host "git " "git " tc home []
           (mkArgumentParserResult (completionObj paSubcommands) (currentArg paBranch) 8)
           [] world0 eq_refl eq_refl eq_refl).
Defined.


(** What a batch drops and a static list keeps: the entry with an empty
    name and the plain string. *)
Example batch_drops_what_a_list_keeps :
  map (fun x => label (it_resource x))
    (c_items (fst (consumeBatch host "git " tc Kind_Argument (mkCollected false false [])
                     (Some (mkGeneratorState gBranches (Some produced))) world0)))
  = ["main"]
  /\ map (fun x => label (it_resource x))
       (c_items (pushStatic host "git " tc Kind_Argument (SpecArgs_array produced)
                   (mkCollected false false [])))
     = [""; "HEAD"; "main"].
Proof. vm_compute. repeat split. Qed.

(** ** The revised statements on the concrete host *)

Import Faulty.

Lemma sample_batch_settles :
  forall spec specLabel,
    In (spec, specLabel) (specLabelPairs [specPorcelain; specUnknown; specCheckout]) ->
    Rejecting.settles host failures spec specLabel.
Proof.
  intros spec specLabel Hin. cbn in Hin.
  destruct Hin as [E | [E | [E | []]]]; injection E as <- <-;
    (split; [intros command shellContext; reflexivity | left; reflexivity]).
Qed.


(** What that batch returns: the candidates of the first and of the third
    spec, in that order, the second contributing nothing. *)
Example sample_batch_result :
  match fst (Rejecting.getFigSuggestions host failures tc [git; g_alias] "git "
               TokenType_Argument home [] "zsh" "git " None
               [specPorcelain; specUnknown; specCheckout] world0) with
  | Rejecting.Fulfilled r =>
      (map (fun x => label (it_resource x)) (items r), hasCurrentArg r)
  | Rejecting.Rejected _ => ([], false)
  end
  = (["commit"; "push"; "-h"; "--help"; "main"; "dev"; "develop"; "HEAD"], true).
Proof. vm_compute. reflexivity. Qed.


(** C7, the claim as stated fails: the mapping is declared with the keys b,
    2, 1 in that order, and its candidates come out as 1, 2, b. *)
Lemma C7_integer_keys_come_first :
  map fst declared = ["b"; "2"; "1"]
  /\ map (fun x => label (it_resource x))
       (c_items (fst (addSuggestions host "git " "git " tc home []
                        (Some (recordOfObject declared)) Kind_Method None
                        (mkCollected false false []) world0)))
     = ["1"; "2"; "b"].
Proof. vm_compute. repeat split. Qed.

(** The alias g of git typed as the first word. *)
Lemma X5_alias_first_word_resolves_witness :
  let r := getFigSpecSuggestions host specPorcelain tc "g " home [] "zsh" None world0 in
  findAvailableCommand host [git; g_alias] "git" = Some git
  /\ In g_alias [git; g_alias]
  /\ startsWith "g " (shownLabel host (label g_alias) ++ " ") = true
  /\ labelStep host tc [git; g_alias] "g " TokenType_Argument home [] "zsh" "g " None
       specPorcelain emptyResult "git" world0
     = (mkResult
          (false || match fst r with Some x => filesRequested x | None => false end)
          (false || match fst r with Some x => foldersRequested x | None => false end)
          (false || match fst r with Some x => hasCurrentArg x | None => false end)
          ([] ++ match fst r with Some x => items x | None => [] end),
        mkWorld (S (clock (snd r))) (executed (snd r))).
Proof.
  cbn zeta.
  assert (Ht : TokenType_Argument <> TokenType_Command) by discriminate.
  assert (Hf : findAvailableCommand host [git; g_alias] "git" = Some git) by reflexivity.
  assert (Hin : In g_alias [git; g_alias]) by (right; left; reflexivity).
  assert (Hs : startsWith "g " (shownLabel host (label g_alias) ++ " ") = true)
    by reflexivity.
  refine (conj Hf (conj Hin (conj Hs _))).
  exact (@X5_alias_first_word_resolves Item string host tc [git; g_alias] "g "
           TokenType_Argument home [] "zsh" "g " None specPorcelain emptyResult "git"
           world0 git g_alias Ht Hf eq_refl Hin eq_refl Hs).
Defined.

(** What the alias brings in: the subcommands and options of the spec. *)
Example alias_brings_candidates :
  map (fun x => label (it_resource x))
    (items (fst (labelStep host tc [git; g_alias] "g " TokenType_Argument home [] "zsh"
                   "g " None specPorcelain emptyResult "git" world0)))
  = ["commit"; "push"; "-h"; "--help"].
Proof. vm_compute. reflexivity. Qed.

End Runs.
